(** * Gemini proxy server: a shallow embedding of [index.js]

    The Express application has two POST handlers, [/api/gemini_stream]
    (server-sent events relay) and [/api/gemini_chat] (single JSON reply).
    Both are [async] functions: they run to their next [await], the event
    loop then dispatches timers and the request's [close] event, and the
    awaited promise settles.  The embedding makes that explicit: a handler is
    a computation in a state-and-exception monad over the [world] it mutates,
    and everything the outside does (what the upstream answers, which
    callbacks fire during which [await], which [res.write] calls throw) is
    read from an environment script.  Durations are not modelled: the script
    says when the timeout and the heartbeat fire.  [res.end], [res.json],
    [clearInterval], [clearTimeout] and the console do not throw.

    Two things the script does not cover.  [await fetch(...)],
    [await upstream.text()] and [await r.json()] are taken to settle; only
    [await reader.read()] may stay pending.  And what [upstream.body] is
    depends on the [fetch] in use: the platform's gives a [ReadableStream],
    the one of the [node-fetch] package, which line 3 loads, a Node.js
    stream; the environment says which. *)

From Stdlib Require Import List String Ascii Bool ZArith Lia Arith.
From Stdlib Require Import DecimalString.
Import ListNotations.
Set Warnings "-register-all".
Local Open Scope string_scope.
Local Open Scope list_scope.

(** ** JavaScript values that come out of [JSON.parse] *)

(** An integer of the range in which a double holds every integer exactly
    ([Number.isSafeInteger]) and [String(n)] is its decimal notation. *)
Record safe_integer := mkSafe {
  int_value : Z;
  int_safe : (Z.abs int_value <=? 9007199254740991)%Z = true
}.

(** A property list is the object's own properties in the engine's
    enumeration order, keys distinct.  Of the numbers only the safe
    integers are represented. *)
Inductive json : Type :=
| JNull
| JBool (b : bool)
| JNum (n : safe_integer)
| JStr (s : string)
| JArr (items : list json)
| JObj (props : list (string * json)).

(** A JavaScript value as an expression yields it: [None] is [undefined]. *)
Definition jsval := option json.

Module JS.

(** ToBoolean. *)
Definition truthy (v : jsval) : bool :=
  match v with
  | None => false
  | Some JNull => false
  | Some (JBool b) => b
  | Some (JNum n) => negb (Z.eqb (int_value n) 0)
  | Some (JStr s) => negb (String.eqb s EmptyString)
  | Some (JArr _) => true
  | Some (JObj _) => true
  end.

(** [a || b] and [a && b] yield one of their operands. *)
Definition or (a b : jsval) : jsval := if truthy a then a else b.
Definition and (a b : jsval) : jsval := if truthy a then b else a.

Fixpoint lookup (k : string) (props : list (string * json)) : jsval :=
  match props with
  | [] => None
  | (k', v) :: rest => if String.eqb k k' then Some v else lookup k rest
  end.

(** [v.name] for a name that no prototype defines ([message],
    [candidates], [output], [content]).  On [undefined] and [null] the
    engine throws; every access in the program is guarded against those,
    and the function answers [undefined] there. *)
Definition get (v : jsval) (name : string) : jsval :=
  match v with
  | Some (JObj props) => lookup name props
  | _ => None
  end.

(** [v[0]]: first element of an array, first code unit of a string,
    property ["0"] of an object. *)
Definition first (v : jsval) : jsval :=
  match v with
  | Some (JArr (x :: _)) => Some x
  | Some (JStr (String c _)) => Some (JStr (String c EmptyString))
  | Some (JObj props) => lookup "0" props
  | _ => None
  end.

(** *** [JSON.stringify] *)

Definition dquote : ascii := ascii_of_nat 34.

Definition hex_digit (n : nat) : ascii :=
  match n with
  | 0 => "0" | 1 => "1" | 2 => "2" | 3 => "3" | 4 => "4" | 5 => "5"
  | 6 => "6" | 7 => "7" | 8 => "8" | 9 => "9" | 10 => "a" | 11 => "b"
  | 12 => "c" | 13 => "d" | 14 => "e" | _ => "f"
  end%char.

Definition escape_char (c : ascii) : string :=
  let n := nat_of_ascii c in
  if Nat.eqb n 34 then String "\" (String dquote EmptyString)
  else if Nat.eqb n 92 then "\\"
  else if Nat.eqb n 8 then "\b"
  else if Nat.eqb n 12 then "\f"
  else if Nat.eqb n 10 then "\n"
  else if Nat.eqb n 13 then "\r"
  else if Nat.eqb n 9 then "\t"
  else if Nat.ltb n 32 then
    ("\u00" ++ String (hex_digit (n / 16)) (String (hex_digit (n mod 16)) EmptyString))%string
  else String c EmptyString.

Fixpoint escape (s : string) : string :=
  match s with
  | EmptyString => EmptyString
  | String c rest => (escape_char c ++ escape rest)%string
  end.

Definition quote (s : string) : string :=
  String dquote (escape s ++ String dquote EmptyString)%string.

(** [String(n)] for a safe integer. *)
Definition number_to_string (n : safe_integer) : string :=
  NilZero.string_of_int (Z.to_int (int_value n)).

Fixpoint join (sep : string) (parts : list string) : string :=
  match parts with
  | [] => EmptyString
  | [p] => p
  | p :: rest => (p ++ sep ++ join sep rest)%string
  end.

Fixpoint stringify (v : json) : string :=
  match v with
  | JNull => "null"
  | JBool true => "true"
  | JBool false => "false"
  | JNum n => number_to_string n
  | JStr s => quote s
  | JArr items => ("[" ++ join "," (map stringify items) ++ "]")%string
  | JObj props =>
      ("{" ++ join ","
                (map (fun kv => quote (fst kv) ++ ":" ++ stringify (snd kv)) props)
           ++ "}")%string
  end.

End JS.

(** ** The world a handler acts on *)

(** One outbound [fetch(url, { method, headers, body, signal })]. *)
Record request := mkRequest {
  url : string;
  method : string;
  authorization : string;   (* headers['Authorization'] *)
  content_type : string;    (* headers['Content-Type'] *)
  payload : string;         (* body: the text JSON.stringify gave *)
  signal : bool             (* signal: is it controller.signal? *)
}.

(** What [res.write] is called with on the event stream. *)
Inductive sse : Type :=
| Heartbeat                      (* ": heartbeat\n\n" *)
| DataChunk (chunk : string)     (* data: JSON.stringify({ chunk }) *)
| DataError (error : string)     (* data: JSON.stringify({ error }) *)
| DataDone.                      (* data: [DONE] *)

Inductive timer : Type := Unset | Active | Cleared | Fired.

Inductive level : Type := Log | Warn | Error.

(** The response object, the handler's locals that its callbacks close over
    ([closed], [heartbeat], [controller], [id]) and the console. *)
Record world := mkWorld {
  status_code : nat;                 (* res.statusCode *)
  headers : list (string * string);  (* res.setHeader calls, in order *)
  json_sent : option json;           (* the body res.json sent *)
  written : list sse;                (* payloads of the res.write calls that returned *)
  write_attempts : nat;              (* res.write calls made so far *)
  ended : bool;                      (* res.end was called *)
  requests : list request;           (* fetch calls issued, in order *)
  close_listener : bool;             (* req.on('close', ...) is registered *)
  closed : bool;                     (* let closed *)
  heartbeat : timer;                 (* const heartbeat = setInterval(...) *)
  clearInterval_calls : nat;         (* calls of clearInterval(heartbeat) *)
  aborted : bool;                    (* controller.signal.aborted *)
  timeout_id : timer;                (* const id = setTimeout(...) *)
  console : list (level * string)    (* console.log, .warn and .error lines *)
}.

Definition set_status_code (w : world) (x : nat) : world :=
  mkWorld x (headers w) (json_sent w) (written w) (write_attempts w) (ended w)
          (requests w) (close_listener w) (closed w) (heartbeat w)
          (clearInterval_calls w) (aborted w) (timeout_id w) (console w).
Definition set_headers (w : world) (x : list (string * string)) : world :=
  mkWorld (status_code w) x (json_sent w) (written w) (write_attempts w) (ended w)
          (requests w) (close_listener w) (closed w) (heartbeat w)
          (clearInterval_calls w) (aborted w) (timeout_id w) (console w).
Definition set_json_sent (w : world) (x : option json) : world :=
  mkWorld (status_code w) (headers w) x (written w) (write_attempts w) (ended w)
          (requests w) (close_listener w) (closed w) (heartbeat w)
          (clearInterval_calls w) (aborted w) (timeout_id w) (console w).
Definition set_written (w : world) (x : list sse) : world :=
  mkWorld (status_code w) (headers w) (json_sent w) x (write_attempts w) (ended w)
          (requests w) (close_listener w) (closed w) (heartbeat w)
          (clearInterval_calls w) (aborted w) (timeout_id w) (console w).
Definition set_write_attempts (w : world) (x : nat) : world :=
  mkWorld (status_code w) (headers w) (json_sent w) (written w) x (ended w) (requests w)
          (close_listener w) (closed w) (heartbeat w) (clearInterval_calls w)
          (aborted w) (timeout_id w) (console w).
Definition set_ended (w : world) (x : bool) : world :=
  mkWorld (status_code w) (headers w) (json_sent w) (written w) (write_attempts w) x
          (requests w) (close_listener w) (closed w) (heartbeat w)
          (clearInterval_calls w) (aborted w) (timeout_id w) (console w).
Definition set_requests (w : world) (x : list request) : world :=
  mkWorld (status_code w) (headers w) (json_sent w) (written w) (write_attempts w)
          (ended w) x (close_listener w) (closed w) (heartbeat w)
          (clearInterval_calls w) (aborted w) (timeout_id w) (console w).
Definition set_close_listener (w : world) (x : bool) : world :=
  mkWorld (status_code w) (headers w) (json_sent w) (written w) (write_attempts w)
          (ended w) (requests w) x (closed w) (heartbeat w) (clearInterval_calls w)
          (aborted w) (timeout_id w) (console w).
Definition set_closed (w : world) (x : bool) : world :=
  mkWorld (status_code w) (headers w) (json_sent w) (written w) (write_attempts w)
          (ended w) (requests w) (close_listener w) x (heartbeat w)
          (clearInterval_calls w) (aborted w) (timeout_id w) (console w).
Definition set_heartbeat (w : world) (x : timer) : world :=
  mkWorld (status_code w) (headers w) (json_sent w) (written w) (write_attempts w)
          (ended w) (requests w) (close_listener w) (closed w) x (clearInterval_calls w)
          (aborted w) (timeout_id w) (console w).
Definition set_clearInterval_calls (w : world) (x : nat) : world :=
  mkWorld (status_code w) (headers w) (json_sent w) (written w) (write_attempts w)
          (ended w) (requests w) (close_listener w) (closed w) (heartbeat w) x
          (aborted w) (timeout_id w) (console w).
Definition set_aborted (w : world) (x : bool) : world :=
  mkWorld (status_code w) (headers w) (json_sent w) (written w) (write_attempts w)
          (ended w) (requests w) (close_listener w) (closed w) (heartbeat w)
          (clearInterval_calls w) x (timeout_id w) (console w).
Definition set_timeout_id (w : world) (x : timer) : world :=
  mkWorld (status_code w) (headers w) (json_sent w) (written w) (write_attempts w)
          (ended w) (requests w) (close_listener w) (closed w) (heartbeat w)
          (clearInterval_calls w) (aborted w) x (console w).
Definition set_console (w : world) (x : list (level * string)) : world :=
  mkWorld (status_code w) (headers w) (json_sent w) (written w) (write_attempts w)
          (ended w) (requests w) (close_listener w) (closed w) (heartbeat w)
          (clearInterval_calls w) (aborted w) (timeout_id w) x.

(** A fresh request: status 200, nothing sent, no timer, no listener. *)
Definition fresh : world :=
  mkWorld 200 [] None [] 0 false [] false false Unset 0 false Unset [].

(** ** Exceptions and the handler monad *)

Record exn := mkExn { err_name : string; err_message : string }.

Definition AbortError : exn := mkExn "AbortError" "The user aborted a request.".
Definition write_failed : exn := mkExn "Error" "write failed".
Definition no_getReader : exn :=
  mkExn "TypeError" "upstream.body.getReader is not a function".

(** [err.name === 'AbortError'] *)
Definition is_abort (e : exn) : bool := String.eqb (err_name e) "AbortError".

(** How a piece of an [async] function ends: it yields a value, throws, or
    sits at an [await] whose promise never settles. *)
Inductive result (A : Type) : Type :=
| Return (a : A)
| Throw (e : exn)
| Pending.
Arguments Return {A} a.
Arguments Throw {A} e.
Arguments Pending {A}.

Definition M (A : Type) : Type := world -> result A * world.

Definition ret {A} (a : A) : M A := fun w => (Return a, w).
Definition throw {A} (e : exn) : M A := fun w => (Throw e, w).
Definition pending {A} : M A := fun w => (Pending, w).

Definition bind {A B} (m : M A) (k : A -> M B) : M B :=
  fun w =>
    match m w with
    | (Return a, w') => k a w'
    | (Throw e, w') => (Throw e, w')
    | (Pending, w') => (Pending, w')
    end.

(** [try { body } catch (err) { handler }] *)
Definition try_catch {A} (body : M A) (handler : exn -> M A) : M A :=
  fun w =>
    match body w with
    | (Throw e, w') => handler e w'
    | other => other
    end.

Definition update (f : world -> world) : M unit := fun w => (Return tt, f w).
Definition read {A} (f : world -> A) : M A := fun w => (Return (f w), w).

Declare Scope js_scope.
Delimit Scope js_scope with js.
Notation "x <- m ;; k" := (bind m (fun x => k))
  (at level 61, m at next level, right associativity) : js_scope.
Notation "m ;; k" := (bind m (fun _ => k))
  (at level 61, right associativity) : js_scope.
Local Open Scope js_scope.

Definition when (b : bool) (m : M unit) : M unit := if b then m else ret tt.

(** [const { name } = v]: a [TypeError] when [v] is [undefined] or [null]. *)
Definition destructure (v : jsval) (name : string) : M jsval :=
  match v with
  | None | Some JNull => throw (mkExn "TypeError" "Cannot destructure")
  | _ => ret (JS.get v name)
  end.

(** ** The environment of one request *)

(** Callbacks the event loop may run while the handler sits at an [await]. *)
Inductive callback : Type :=
| ReqClose        (* the request's 'close' event *)
| TimeoutFires    (* the setTimeout callback *)
| HeartbeatTick.  (* the setInterval callback *)

Inductive settled (A : Type) : Type :=
| Resolved (a : A)
| Rejected (e : exn).
Arguments Resolved {A} a.
Arguments Rejected {A} e.

(** What [reader.read()] settles to. *)
Inductive read_result : Type :=
| Chunk (value : list Byte.byte)   (* { done: false, value } *)
| Done.                            (* { done: true } *)

(** One [await reader.read()]: the callbacks that run meanwhile, then the
    settlement. *)
Record read_step := mkRead {
  read_callbacks : list callback;
  read_settles : settled read_result
}.

(** What [upstream.body] holds.  A [ReadableStream] has [getReader()]; it
    is given by the script of its reader, and a script that runs out is a
    stream that goes silent.  A Node.js stream, the body of a [node-fetch]
    response, has no [getReader]. *)
Inductive stream_body : Type :=
| ReadableStream (reads : list read_step)
| NodeReadable.

(** The upstream's answer.  [text_body] is [None] when [text()] rejects,
    [json_body] is [None] when [json()] rejects, [body] is [None] when the
    response has no body. *)
Record response := mkResponse {
  ok : bool;
  status : nat;
  text_body : option string;
  json_body : option json;
  body : option stream_body
}.

Record environment := mkEnv {
  write_ok : nat -> bool;             (* does the n-th res.write return? *)
  fetch_callbacks : list callback;    (* callbacks during await fetch(...) *)
  fetch_settles : settled response;
  text_callbacks : list callback      (* callbacks during await upstream.text() *)
}.

(** [new TextDecoder()] with [decode(value, { stream: true })]: the decoder
    keeps the bytes of an unfinished character for the next call. *)
Record TextDecoder := mkDecoder {
  decoder_state : Type;
  decoder_fresh : decoder_state;
  decode : decoder_state -> list Byte.byte -> string * decoder_state
}.

(** Object literals and [res.json]: a property whose value is [undefined]
    is not serialized. *)
Fixpoint defined_props (props : list (string * jsval)) : list (string * json) :=
  match props with
  | [] => []
  | (k, Some v) :: rest => (k, v) :: defined_props rest
  | (_, None) :: rest => defined_props rest
  end.

Definition object (props : list (string * jsval)) : json := JObj (defined_props props).

(** The text [res.write] puts on the wire for each payload. *)
Definition newline : string := String (ascii_of_nat 10) EmptyString.

Definition render (e : sse) : string :=
  match e with
  | Heartbeat => ": heartbeat" ++ newline ++ newline
  | DataChunk chunk =>
      "data: " ++ JS.stringify (JObj [("chunk", JStr chunk)]) ++ newline ++ newline
  | DataError error =>
      "data: " ++ JS.stringify (JObj [("error", JStr error)]) ++ newline ++ newline
  | DataDone => "data: [DONE]" ++ newline ++ newline
  end%string.

(** ** The response, the timers and the console *)

Definition res_status (code : nat) : M unit :=
  update (fun w => set_status_code w code).

Definition res_json (obj : json) : M unit :=
  update (fun w => set_ended (set_json_sent w (Some obj)) true).

Definition res_setHeader (name value : string) : M unit :=
  update (fun w => set_headers w (headers w ++ [(name, value)])).

Definition res_end : M unit := update (fun w => set_ended w true).

Definition console_line (l : level) (text : string) : M unit :=
  update (fun w => set_console w (console w ++ [(l, text)])).

Definition setInterval_heartbeat : M unit := update (fun w => set_heartbeat w Active).

Definition clearInterval_heartbeat : M unit :=
  update (fun w =>
            set_clearInterval_calls (set_heartbeat w Cleared) (S (clearInterval_calls w))).

Definition new_AbortController : M unit := update (fun w => set_aborted w false).

Definition controller_abort : M unit := update (fun w => set_aborted w true).

Definition setTimeout_abort : M unit := update (fun w => set_timeout_id w Active).

Definition clearTimeout_id : M unit :=
  update (fun w => match timeout_id w with
                   | Active => set_timeout_id w Cleared
                   | _ => w
                   end).

Definition error_body (text : string) : json := JObj [("error", JStr text)].

(** [maxOutputTokens: 512] *)
Definition maxOutputTokens : safe_integer := mkSafe 512 eq_refl.

Section Server.

(** [process.env], the environment of the request and the platform's
    [TextDecoder]. *)
Variable process_env : string -> option string.
Variable E : environment.
Variable decoder : TextDecoder.

Definition GEMINI_API_KEY : option string := process_env "GEMINI_API_KEY".

(** [process.env.GEMINI_MODEL || 'gemini-1.5-pro'] *)
Definition GEMINI_MODEL : string :=
  match process_env "GEMINI_MODEL" with
  | Some (String c rest) => String c rest
  | _ => "gemini-1.5-pro"
  end.

(** [!GEMINI_API_KEY] is false for a non-empty string only. *)
Definition configured (key : option string) : bool :=
  match key with
  | Some (String _ _) => true
  | _ => false
  end.

Definition bearer : string :=
  ("Bearer " ++ match GEMINI_API_KEY with Some k => k | None => "undefined" end)%string.

(** The arguments of [fetch] (lines 56 to 64 and 127 to 135). *)
Definition upstream_request (message : jsval) : request :=
  mkRequest
    ("https://generative.googleapis.com/v1beta2/models/" ++ GEMINI_MODEL ++ ":generateText")%string
    "POST"
    bearer
    "application/json"
    (JS.stringify (object [("prompt", Some (object [("text", message)]));
                           ("maxOutputTokens", Some (JNum maxOutputTokens))]))
    true.

(** *** [res.write] *)

Definition res_write (e : sse) : M unit :=
  fun w =>
    let n := write_attempts w in
    let w' := set_write_attempts w (S n) in
    if write_ok E n then (Return tt, set_written w' (written w' ++ [e]))
    else (Throw write_failed, w').

(** [if(!closed) res.write(...)] *)
Definition unless_closed (e : sse) : M unit :=
  c <- read closed ;; when (negb c) (res_write e).

(** *** The callbacks *)

(** The listener of [req.on('close', ...)]. *)
Definition on_close : M unit :=
  update (fun w => set_closed w true) ;;
  clearInterval_heartbeat ;;
  console_line Log "Client disconnected, aborting upstream request" ;;
  try_catch controller_abort (fun _ => ret tt).

(** The heartbeat: [try { res.write(': heartbeat\n\n'); } catch (e) {}] *)
Definition heartbeat_tick : M unit :=
  try_catch (res_write Heartbeat) (fun _ => ret tt).

(** A callback runs when its source is live: the 'close' event is emitted
    once and reaches a registered listener, a timer fires while active. *)
Definition dispatch (c : callback) : M unit :=
  fun w =>
    match c with
    | ReqClose =>
        if close_listener w && negb (closed w) then on_close w else (Return tt, w)
    | TimeoutFires =>
        match timeout_id w with
        | Active => controller_abort (set_timeout_id w Fired)
        | _ => (Return tt, w)
        end
    | HeartbeatTick =>
        match heartbeat w with
        | Active => heartbeat_tick w
        | _ => (Return tt, w)
        end
    end.

Fixpoint run_callbacks (cs : list callback) : M unit :=
  match cs with
  | [] => ret tt
  | c :: rest => dispatch c ;; run_callbacks rest
  end.

Definition settle {A} (s : settled A) : M A :=
  match s with
  | Resolved a => ret a
  | Rejected e => throw e
  end.

(** [await fetch(url, { ..., signal: controller.signal })] *)
Definition fetch (rq : request) : M response :=
  update (fun w => set_requests w (requests w ++ [rq])) ;;
  run_callbacks (fetch_callbacks E) ;;
  settle (fetch_settles E).

(** [await upstream.text().catch(()=>null)], for a body that arrives or
    fails: the text, or [null]. *)
Definition text_or_null (r : response) : M (option string) :=
  run_callbacks (text_callbacks E) ;; ret (text_body r).

(** *** POST /api/gemini_stream *)

(** The [while(true)] loop over [reader.read()].  It returns at either
    [break]. *)
Fixpoint relay_loop (reads : list read_step) (d : decoder_state decoder) : M unit :=
  match reads with
  | [] => pending
  | r :: rest =>
      run_callbacks (read_callbacks r) ;;
      step <- settle (read_settles r) ;;
      match step with
      | Done => ret tt
      | Chunk value =>
          let (chunk, d') := decode decoder d value in
          c <- read closed ;;
          if c then ret tt
          else
            sent <- try_catch (res_write (DataChunk chunk) ;; ret true)
                              (fun _ => console_line Warn "Failed to write chunk to client" ;;
                                        ret false) ;;
            if sent then relay_loop rest d' else ret tt
      end
  end.

(** [upstream.body.getReader()]: on a body without that method the call
    is a [TypeError]. *)
Definition getReader (b : stream_body) : M (list read_step) :=
  match b with
  | ReadableStream reads => ret reads
  | NodeReadable => throw no_getReader
  end.

(** The body of the [try] from [clearTimeout(id)] on, given what
    [await fetch(...)] yielded. *)
Definition relay_response (upstream : response) : M unit :=
  clearTimeout_id ;;
  if negb (ok upstream) then
    errText <- text_or_null upstream ;;
    console_line Error "Gemini stream failed" ;;
    unless_closed (DataError "Upstream error") ;;
    clearInterval_heartbeat ;;
    res_end
  else
    match body upstream with
    | None =>
        unless_closed (DataError "No stream from upstream") ;;
        clearInterval_heartbeat ;;
        res_end
    | Some stream =>
        reads <- getReader stream ;;
        relay_loop reads (decoder_fresh decoder) ;;
        unless_closed DataDone ;;
        clearInterval_heartbeat ;;
        res_end
    end.

Definition stream_try (message : jsval) : M unit :=
  setTimeout_abort ;;
  upstream <- fetch (upstream_request message) ;;
  relay_response upstream.

Definition stream_catch (err : exn) : M unit :=
  console_line Error "Error in stream proxy" ;;
  clearInterval_heartbeat ;;
  if is_abort err then
    unless_closed (DataError "AI request timed out") ;;
    res_end
  else
    unless_closed (DataError "Internal server error") ;;
    res_end.

Definition gemini_stream (req_body : jsval) : M unit :=
  message <- destructure (JS.or req_body (Some (JObj []))) "message" ;;
  if negb (JS.truthy message) then
    res_status 400 ;; res_json (error_body "message required")
  else if negb (configured GEMINI_API_KEY) then
    res_status 500 ;; res_json (error_body "GEMINI_API_KEY not configured in server")
  else
    res_setHeader "Content-Type" "text/event-stream" ;;
    res_setHeader "Cache-Control" "no-cache" ;;
    res_setHeader "Connection" "keep-alive" ;;
    res_setHeader "Access-Control-Allow-Origin" "*" ;;
    update (fun w => set_closed w false) ;;
    setInterval_heartbeat ;;
    new_AbortController ;;
    update (fun w => set_close_listener w true) ;;
    try_catch (stream_try message) stream_catch.

(** *** POST /api/gemini_chat *)

Definition extract_reply (data : json) : jsval :=
  let d := Some data in
  let candidates := JS.get d "candidates" in
  let output := JS.get d "output" in
  JS.or
    (JS.or
       (JS.and d
          (JS.and (JS.and candidates (JS.first candidates))
                  (JS.get (JS.first candidates) "output")))
       (JS.and (JS.and (JS.and d output) (JS.first output))
               (JS.get (JS.first output) "content")))
    (Some (JStr (JS.stringify data))).

Definition chat_try (message : jsval) : M unit :=
  new_AbortController ;;
  setTimeout_abort ;;
  r <- fetch (upstream_request message) ;;
  clearTimeout_id ;;
  if negb (ok r) then
    errText <- text_or_null r ;;
    console_line Error "Gemini call failed" ;;
    res_status 502 ;; res_json (error_body "Upstream AI API error")
  else
    (* await r.json().catch(()=>null), for a body that arrives or fails *)
    let data := match json_body r with Some j => j | None => JNull end in
    let reply := extract_reply data in
    res_json (object [("reply", reply)]).

Definition chat_catch (err : exn) : M unit :=
  console_line Error "Error in proxy /api/gemini_chat" ;;
  if is_abort err then
    res_status 504 ;; res_json (error_body "AI request timed out")
  else
    res_status 500 ;; res_json (error_body "Internal server error").

Definition gemini_chat (req_body : jsval) : M unit :=
  message <- destructure (JS.or req_body (Some (JObj []))) "message" ;;
  if negb (JS.truthy message) then
    res_status 400 ;; res_json (error_body "message required")
  else if negb (configured GEMINI_API_KEY) then
    res_status 500 ;; res_json (error_body "GEMINI_API_KEY not configured in server")
  else
    try_catch (chat_try message) chat_catch.

End Server.

(** ** The middleware in front of the handlers *)

(** The body of an inbound POST, by what the body parser makes of it
    (a body in an encoding or charset the parser does not support, which it
    refuses with status 415, is left out). *)
Inductive post_body : Type :=
| NoJson                 (* no body, or a Content-Type other than JSON *)
| JsonText (v : json)    (* Content-Type: application/json, the text of v *)
| Malformed              (* Content-Type: application/json, a text that is not JSON *)
| TooLarge.              (* a JSON body of more than 256kb *)

(** [express.json({ limit: '256kb' })] (line 11).  The parser is strict
    unless told otherwise: it takes objects and arrays only and fails with
    status 400 on any other JSON text, as it does on a malformed one.  A
    request it skips keeps the [req.body] it came with, [skipped] ([{}] or
    [undefined], by the version of Express).  [inl] is the [req.body] the
    route will see, [inr] the status of the error handed to Express. *)
Definition express_json (skipped : jsval) (p : post_body) : jsval + nat :=
  match p with
  | NoJson => inl skipped
  | JsonText (JObj props) => inl (Some (JObj props))
  | JsonText (JArr items) => inl (Some (JArr items))
  | JsonText _ => inr 400
  | Malformed => inr 400
  | TooLarge => inr 413
  end.

(** A POST to one of the two routes: the parser (line 11), [cors()]
    (line 13), the logger (line 15, writing the line [logged]), then the
    route's handler.  When the parser fails Express skips all three, and
    its own error handler answers with the error's status and an HTML page,
    which is no [res.json] body (the page and the stack trace that Express
    prints are left out). *)
Definition post (skipped : jsval) (logged : string) (handler : jsval -> M unit)
           (p : post_body) : M unit :=
  match express_json skipped p with
  | inl req_body =>
      res_setHeader "Access-Control-Allow-Origin" "*" ;;
      console_line Log logged ;;
      handler req_body
  | inr code => res_status code ;; res_end
  end.

(** ** What the claims speak about *)

Definition is_data (e : sse) : bool :=
  match e with
  | Heartbeat => false
  | _ => true
  end.

(** The [data:] events the client received, heartbeat comments left out. *)
Definition data_events (w : world) : list sse := filter is_data (written w).

Definition is_terminal (e : sse) : bool :=
  match e with
  | DataError _ | DataDone => true
  | _ => false
  end.

Definition terminal_events (w : world) : list sse := filter is_terminal (written w).

Definition is_object (v : jsval) : bool :=
  match v with
  | Some (JObj _) => true
  | _ => false
  end.

(** What [const { message } = req.body || {}] binds. *)
Definition message_of (req_body : jsval) : jsval :=
  JS.get (JS.or req_body (Some (JObj []))) "message".

(** The handler answered with [res.status(code).json({ error: text })],
    having called [fetch] and [res.write] not once. *)
Definition rejects (run : result unit * world) (code : nat) (text : string) : Prop :=
  fst run = Return tt /\
  status_code (snd run) = code /\
  json_sent (snd run) = Some (error_body text) /\
  requests (snd run) = [] /\
  write_attempts (snd run) = 0 /\
  written (snd run) = [].

(** The handler answered [res.json(obj)] with status 200. *)
Definition replies (run : result unit * world) (obj : json) : Prop :=
  fst run = Return tt /\
  status_code (snd run) = 200 /\
  json_sent (snd run) = Some obj.

(** The reply extraction as the specification words it: the first shape
    that yields a usable value wins, the serialized payload comes last. *)
Definition candidates_shape (data : json) : jsval :=
  JS.get (JS.first (JS.get (Some data) "candidates")) "output".

Definition output_shape (data : json) : jsval :=
  JS.get (JS.first (JS.get (Some data) "output")) "content".

Definition fallback_chain (data : json) : jsval :=
  if JS.truthy (candidates_shape data) then candidates_shape data
  else if JS.truthy (output_shape data) then output_shape data
  else Some (JStr (JS.stringify data)).

(** What [await r.json().catch(()=>null)] yields. *)
Definition parsed (r : response) : json :=
  match json_body r with
  | Some j => j
  | None => JNull
  end.

(** A decoder for 7-bit input, where UTF-8 decoding maps each byte to its
    character and keeps nothing back. *)
Definition ascii_decoder : TextDecoder :=
  mkDecoder unit tt (fun _ bytes => (string_of_list_byte bytes, tt)).

(** The texts a decoder yields for a sequence of chunks, and the state it
    is left in. *)
Fixpoint decoded (D : TextDecoder) (d : decoder_state D) (values : list (list Byte.byte))
  : list string :=
  match values with
  | [] => []
  | value :: rest => fst (decode D d value) :: decoded D (snd (decode D d value)) rest
  end.

Fixpoint decoder_after (D : TextDecoder) (d : decoder_state D) (values : list (list Byte.byte))
  : decoder_state D :=
  match values with
  | [] => d
  | value :: rest => decoder_after D (snd (decode D d value)) rest
  end.

(** The world in which the streaming handler enters its [try]: the four
    headers set, [closed] false, the heartbeat running, the listener
    registered. *)
Definition opened : world :=
  mkWorld 200
          [("Content-Type", "text/event-stream"); ("Cache-Control", "no-cache");
           ("Connection", "keep-alive"); ("Access-Control-Allow-Origin", "*")]
          None [] 0 false [] true false Active 0 false Unset [].

(** A session in flight: the handler has neither cleared the heartbeat nor
    sent a terminal event; the heartbeat was cleared by the close listener
    if and only if [closed] is set. *)
Record in_flight (w : world) : Prop := mkInFlight {
  listener_registered : close_listener w = true;
  nothing_terminal : terminal_events w = [];
  not_ended : ended w = false;
  cleared_by_listener : clearInterval_calls w = if closed w then 1 else 0;
  heartbeat_by_listener : heartbeat w = if closed w then Cleared else Active
}.

(** A session the handler has wound up: it has cleared the heartbeat itself,
    on top of the listener's call if the client had left. *)
Record wound_up (w : world) : Prop := mkWoundUp {
  heartbeat_cleared : heartbeat w = Cleared;
  cleared_by_handler : clearInterval_calls w = S (if closed w then 1 else 0);
  one_terminal_at_most : List.length (terminal_events w) <= 1
}.

Definition with_key (name : string) : option string :=
  if String.eqb name "GEMINI_API_KEY" then Some "secret" else None.

Definition without_key (name : string) : option string := None.

Definition hi : jsval := Some (JObj [("message", JStr "hi")]).

(** [evolves w w']: the difference that callbacks and relayed chunks make.
    They leave the response head, the sent body and the request log alone
    and write no terminal event; the only call of [clearInterval] is the
    close listener's, made when [closed] flips; once [closed] is set and the
    heartbeat is off, nothing more is written. *)
Record evolves (w w' : world) : Prop := mkEvolves {
  keep_status_code : status_code w' = status_code w;
  keep_headers : headers w' = headers w;
  keep_json_sent : json_sent w' = json_sent w;
  keep_ended : ended w' = ended w;
  keep_requests : requests w' = requests w;
  keep_close_listener : close_listener w' = close_listener w;
  keep_terminal_events : terminal_events w' = terminal_events w;
  closed_stays : closed w = true -> closed w' = true;
  aborted_stays : aborted w = true -> aborted w' = true;
  close_aborts : closed w = false -> closed w' = true -> aborted w' = true;
  cleared_on_close :
    clearInterval_calls w' =
    clearInterval_calls w + (if closed w' && negb (closed w) then 1 else 0);
  heartbeat_on_close :
    heartbeat w' = if closed w' && negb (closed w) then Cleared else heartbeat w;
  frozen_when_closed :
    closed w = true -> heartbeat w <> Active ->
    written w' = written w /\ write_attempts w' = write_attempts w
}.

(** The world in which the streaming handler's [await fetch(...)] settles. *)
Definition fetched (process_env : string -> option string) (E : environment)
           (message : jsval) : world :=
  snd (run_callbacks E (fetch_callbacks E)
         (set_requests (set_timeout_id opened Active)
                       [upstream_request process_env message])).

(** ** Concrete requests and environments *)

Definition every_write_returns (n : nat) : bool := true.

Definition json_response (data : option json) : response :=
  mkResponse true 200 None data None.

(** The upstream answers [{ candidates: [{ output: "hi there" }] }]. *)
Definition hi_there : environment :=
  mkEnv every_write_returns []
        (Resolved (json_response
                     (Some (JObj [("candidates", JArr [JObj [("output", JStr "hi there")]])]))))
        [].

(** The upstream answers 200 with a body that is not JSON. *)
Definition unparseable : environment :=
  mkEnv every_write_returns [] (Resolved (json_response None)) [].

(** The timer fires while [fetch] is pending and [fetch] rejects. *)
Definition upstream_too_slow : environment :=
  mkEnv every_write_returns [HeartbeatTick; TimeoutFires] (Rejected AbortError) [].

Definition chunk_read (cs : list callback) (text : string) : read_step :=
  mkRead cs (Resolved (Chunk (list_byte_of_string text))).

Definition streaming_response (reads : list read_step) : response :=
  mkResponse true 200 None None (Some (ReadableStream reads)).

(** The upstream streams "He", "llo" and completes; the heartbeat ticks
    twice meanwhile. *)
Definition he_llo : environment :=
  mkEnv every_write_returns [HeartbeatTick]
        (Resolved (streaming_response
                     [chunk_read [] "He"; chunk_read [HeartbeatTick] "llo";
                      mkRead [] (Resolved Done)]))
        [].

(** The client leaves while [fetch] is pending; [fetch] rejects. *)
Definition client_leaves_early : environment :=
  mkEnv every_write_returns [ReqClose] (Rejected AbortError) [].

(** The client leaves after "He" and "llo" were relayed, while the third
    read is pending; the upstream would have gone on. *)
Definition client_leaves_midway : environment :=
  mkEnv every_write_returns []
        (Resolved (streaming_response
                     [chunk_read [] "He"; chunk_read [HeartbeatTick] "llo";
                      chunk_read [ReqClose] " wor"; chunk_read [] "ld"; mkRead [] (Resolved Done)]))
        [].

(** The upstream answers 200 and streams; [fetch] is the one of
    [node-fetch], whose response body is a Node.js stream. *)
Definition node_fetch_streams : environment :=
  mkEnv every_write_returns [] (Resolved (mkResponse true 200 None None (Some NodeReadable))) [].

(** Every [res.write] call throws. *)
Definition channel_broken : environment :=
  mkEnv (fun _ => false) []
        (Resolved (streaming_response
                     [chunk_read [] "He"; chunk_read [] "llo"; mkRead [] (Resolved Done)]))
        [].

(** The payload whose [candidates[0].output] is the empty string. *)
Definition empty_output : json := JObj [("candidates", JArr [JObj [("output", JStr EmptyString)]])].

(** ** Invariants of a handler *)

(** A computation keeps [P]: whatever way it ends, [P] holds of the world it
    leaves if it held of the world it found. *)
Definition preserves (P : world -> Prop) {A : Type} (m : M A) : Prop :=
  forall w, P w -> P (snd (m w)).

(** [P] is kept by what a [catch] block does: writing, logging, clearing
    the heartbeat, ending the response. *)
Record stable_sync (E : environment) (P : world -> Prop) : Prop := mkStableSync {
  stable_write : forall e, preserves P (res_write E e);
  stable_console : forall l text, preserves P (console_line l text);
  stable_clearInterval : preserves P clearInterval_heartbeat;
  stable_end : preserves P res_end
}.

(** [P] is kept, besides, by [clearTimeout(id)] and by every callback. *)
Record stable (E : environment) (P : world -> Prop) : Prop := mkStable {
  stable_in_catch : stable_sync E P;
  stable_clearTimeout : preserves P clearTimeout_id;
  stable_dispatch : forall c, preserves P (dispatch E c)
}.

(** The non-streaming handler registers no listener and starts no
    heartbeat: while it waits, only its timer can act. *)
Record chat_idle (w : world) : Prop := mkChatIdle {
  idle_listener : close_listener w = false;
  idle_closed : closed w = false;
  idle_heartbeat : heartbeat w = Unset;
  idle_written : written w = [];
  idle_write_attempts : write_attempts w = 0;
  idle_clearInterval : clearInterval_calls w = 0;
  idle_status_code : status_code w = 200;
  idle_json_sent : json_sent w = None;
  idle_ended : ended w = false;
  idle_headers : headers w = []
}.

(** The status and body of the non-streaming answer, by what [fetch]
    settles to. *)
Definition chat_answer (E : environment) : nat * json :=
  match fetch_settles E with
  | Rejected e =>
      if is_abort e then (504, error_body "AI request timed out")
      else (500, error_body "Internal server error")
  | Resolved r =>
      if ok r then (200, object [("reply", extract_reply (parsed r))])
      else (502, error_body "Upstream AI API error")
  end.

(** The request both handlers send upstream, spelled out. *)
Definition generateText (model key : string) (message : json) : request :=
  mkRequest
    ("https://generative.googleapis.com/v1beta2/models/" ++ model ++ ":generateText")%string
    "POST"
    ("Bearer " ++ key)%string
    "application/json"
    (JS.stringify
       (JObj [("prompt", JObj [("text", message)]); ("maxOutputTokens", JNum maxOutputTokens)]))
    true.

(** The statuses the non-streaming handler answers with. *)
Definition chat_statuses : list nat := [200; 400; 500; 502; 504].

(** The upstream answers 429 with the text "rate limited". *)
Definition rate_limited : environment :=
  mkEnv every_write_returns [HeartbeatTick]
        (Resolved (mkResponse false 429 (Some "rate limited") None None))
        [HeartbeatTick].

(** [fetch] rejects with a network error. *)
Definition network_down : environment :=
  mkEnv every_write_returns [] (Rejected (mkExn "FetchError" "ECONNREFUSED")) [].

(** The world in which the non-streaming handler's [await fetch(...)]
    settles. *)
Definition chat_fetched (process_env : string -> option string) (E : environment)
           (message : jsval) : world :=
  snd (run_callbacks E (fetch_callbacks E)
         (set_requests (set_timeout_id (set_aborted fresh false) Active)
                       [upstream_request process_env message])).

(** The upstream answers 200 without a body. *)
Definition no_body : environment :=
  mkEnv every_write_returns [] (Resolved (mkResponse true 200 None None None)) [].

(** The upstream streams "He" and "llo"; the third read fails. *)
Definition breaks_midway : environment :=
  mkEnv every_write_returns []
        (Resolved (streaming_response
                     [chunk_read [] "He"; chunk_read [HeartbeatTick] "llo";
                      mkRead [] (Rejected (mkExn "FetchError" "socket hang up"));
                      chunk_read [] "never"]))
        [].

(** The upstream streams "He" and "llo" and then says nothing more. *)
Definition goes_silent : environment :=
  mkEnv every_write_returns []
        (Resolved (streaming_response [chunk_read [] "He"; chunk_read [TimeoutFires] "llo"]))
        [].

(** The event the [catch] block of the streaming handler sends for [err]. *)
Definition catch_event (err : exn) : sse :=
  DataError (if is_abort err then "AI request timed out" else "Internal server error").

(** Does a text hold a control character (a line feed, a carriage return,
    anything below the space)? *)
Fixpoint has_control (s : string) : bool :=
  match s with
  | EmptyString => false
  | String c rest => (nat_of_ascii c <? 32)%nat || has_control rest
  end.




(** ** A channel that fails *)




(** * Properties *)

(** ** JavaScript operators *)

Lemma get_falsy (v : jsval) (name : string) : JS.truthy v = false -> JS.get v name = None.
Proof. destruct v as [[]|]; simpl; congruence. Qed.

Lemma first_falsy (v : jsval) : JS.truthy v = false -> JS.first v = None.
Proof.
  destruct v as [[| b | z | s | items | props]|]; simpl; try congruence.
  destruct s; simpl; congruence.
Qed.

(** With the [|| {}] default the destructuring never throws. *)
Lemma destructure_defaulted (req_body : jsval) (w : world) :
  destructure (JS.or req_body (Some (JObj []))) "message" w =
  (Return (message_of req_body), w).
Proof.
  unfold message_of, JS.or.
  destruct req_body as [[| b | z | s | items | props]|]; simpl; try reflexivity.
  - destruct b; reflexivity.
  - destruct (negb (int_value z =? 0)%Z); reflexivity.
  - destruct (negb (s =? EmptyString)%string); reflexivity.
Qed.

Lemma bind_destructure {A : Type} (k : jsval -> M A) (req_body : jsval) (w : world) :
  bind (destructure (JS.or req_body (Some (JObj []))) "message") k w =
  k (message_of req_body) w.
Proof. unfold bind. rewrite destructure_defaulted. reflexivity. Qed.

(** Enter a handler: run the destructuring, leaving its [if]s. *)
Ltac enter_handler :=
  unfold gemini_stream, gemini_chat; rewrite ?bind_destructure; cbv beta.

(** Decide the [if]s of a chain of [&&] and [||] one operand at a time; an
    operand known to be falsy has no properties and no first element. *)
Ltac known_truthy :=
  repeat match goal with
         | H : JS.truthy ?x = _ |- context [JS.truthy ?x] => rewrite H
         end.

Ltac falsy_operand H :=
  rewrite ?(first_falsy _ H), ?(get_falsy _ "output" H), ?(get_falsy _ "content" H);
  simpl; known_truthy.

Ltac by_operand x :=
  let H := fresh "H" in
  destruct (JS.truthy x) eqn:H; known_truthy; [| falsy_operand H].

Lemma extract_reply_chain (data : json) : extract_reply data = fallback_chain data.
Proof.
  unfold extract_reply, fallback_chain, candidates_shape, output_shape, JS.or, JS.and.
  destruct (JS.truthy (Some data)) eqn:Hd.
  - generalize (JS.get (Some data) "candidates") (JS.get (Some data) "output").
    intros c o.
    by_operand c; [by_operand (JS.first c); [by_operand (JS.get (JS.first c) "output")|]|];
      try reflexivity;
      (by_operand o; [by_operand (JS.first o); [by_operand (JS.get (JS.first o) "content")|]|]);
      reflexivity.
  - rewrite !(get_falsy _ _ Hd).
    change (JS.first None) with (@None json). change (JS.get None "output") with (@None json).
    change (JS.get None "content") with (@None json). change (JS.truthy None) with false.
    cbv iota. rewrite ?Hd. cbv iota. rewrite ?Hd. reflexivity.
Qed.

(** ** What waiting and relaying can change *)

Lemma evolves_refl (w : world) : evolves w w.
Proof.
  constructor; auto.
  - intros H H'. congruence.
  - destruct (closed w); simpl; lia.
  - destruct (closed w); reflexivity.
Qed.

Lemma evolves_trans (w1 w2 w3 : world) : evolves w1 w2 -> evolves w2 w3 -> evolves w1 w3.
Proof.
  intros [] []. constructor; try congruence; auto.
  - intros H1 H3. destruct (closed w2) eqn:H2; auto.
  - destruct (closed w1), (closed w2) eqn:H2, (closed w3);
      simpl in *; try lia;
      try (specialize (closed_stays0 eq_refl); discriminate);
      try (specialize (closed_stays1 eq_refl); discriminate).
  - destruct (closed w1), (closed w2) eqn:H2, (closed w3);
      simpl in *; try congruence;
      try (specialize (closed_stays0 eq_refl); discriminate);
      try (specialize (closed_stays1 eq_refl); discriminate).
  - intros Hc Hb. destruct (frozen_when_closed0 Hc Hb) as [Hw Ha].
    assert (Hb2 : heartbeat w2 <> Active).
    { rewrite heartbeat_on_close0, Hc, andb_false_r. assumption. }
    destruct (frozen_when_closed1 (closed_stays0 Hc) Hb2). split; congruence.
Qed.

(** Close the field of [evolves] at hand after a step that is known. *)
Ltac evolves_fields w :=
  constructor; simpl;
  first [ solve [auto | congruence | intros; split; congruence]
        | unfold terminal_events; simpl; rewrite filter_app; simpl; apply app_nil_r
        | destruct (closed w); simpl; solve [lia | congruence] ].

Section Callbacks.

Variable E : environment.

Lemma dispatch_evolves (c : callback) (w : world) :
  exists w', dispatch E c w = (Return tt, w') /\ evolves w w' /\ data_events w' = data_events w.
Proof.
  destruct c; unfold dispatch.
  - destruct (close_listener w && negb (closed w)) eqn:Hl.
    + apply andb_prop in Hl. destruct Hl as [_ Hc].
      apply negb_true_iff in Hc.
      eexists. split; [reflexivity|]. split; [| reflexivity].
      constructor; simpl; auto; try congruence.
      * rewrite Hc. simpl. lia.
      * rewrite Hc. reflexivity.
    + eexists. split; [reflexivity|]. split; [apply evolves_refl | reflexivity].
  - destruct (timeout_id w) eqn:Ht;
      (eexists; split; [reflexivity|]); (split; [| reflexivity]);
      try apply evolves_refl.
    evolves_fields w.
  - destruct (heartbeat w) eqn:Hh;
      try (eexists; split; [reflexivity|]; split; [apply evolves_refl | reflexivity]).
    unfold heartbeat_tick, try_catch, res_write.
    destruct (write_ok E (write_attempts w));
      (eexists; split; [reflexivity|]);
      (split; [evolves_fields w|]); simpl; try reflexivity.
    unfold data_events. simpl. rewrite filter_app. simpl. apply app_nil_r.
Qed.

Lemma run_callbacks_evolves (cs : list callback) (w : world) :
  exists w',
    run_callbacks E cs w = (Return tt, w') /\ evolves w w' /\ data_events w' = data_events w.
Proof.
  revert w. induction cs as [| c cs IH]; intros w.
  - exists w. split; [reflexivity|]. split; [apply evolves_refl | reflexivity].
  - destruct (dispatch_evolves c w) as (w1 & H1 & Hev1 & Hd1).
    destruct (IH w1) as (w2 & H2 & Hev2 & Hd2).
    exists w2. split; [| split; [eapply evolves_trans; eassumption | congruence]].
    simpl. unfold bind. rewrite H1. exact H2.
Qed.

(** Without a 'close' event the flag stays as it is. *)
Lemma run_callbacks_no_close (cs : list callback) (w : world) :
  ~ In ReqClose cs -> closed (snd (run_callbacks E cs w)) = closed w.
Proof.
  revert w. induction cs as [| c cs IH]; intros w Hn; [reflexivity|].
  simpl. unfold bind.
  destruct (dispatch_evolves c w) as (w1 & H1 & _). rewrite H1.
  rewrite IH by (intros Hin; apply Hn; now right).
  destruct c; unfold dispatch in H1.
  - exfalso. apply Hn. now left.
  - destruct (timeout_id w); inversion H1; reflexivity.
  - destruct (heartbeat w); inversion H1; try reflexivity.
    revert H1. unfold heartbeat_tick, try_catch, res_write.
    destruct (write_ok E (write_attempts w)); intros H1; inversion H1; reflexivity.
Qed.

(** A 'close' event that reaches the listener sets the flag. *)
Lemma run_callbacks_close (cs : list callback) (w : world) :
  In ReqClose cs -> close_listener w = true -> closed (snd (run_callbacks E cs w)) = true.
Proof.
  revert w. induction cs as [| c cs IH]; intros w Hin Hl; [contradiction|].
  simpl. unfold bind.
  destruct (dispatch_evolves c w) as (w1 & H1 & Hev1 & _). rewrite H1.
  destruct (run_callbacks_evolves cs w1) as (w2 & H2 & Hev2 & _).
  destruct Hin as [-> | Hin].
  - rewrite H2. simpl. apply (closed_stays _ _ Hev2).
    unfold dispatch in H1. rewrite Hl in H1.
    destruct (closed w) eqn:Hc; simpl in H1; inversion H1; subst; simpl; congruence.
  - apply IH; [assumption|]. rewrite (keep_close_listener _ _ Hev1). assumption.
Qed.

(** The timer firing while it is active aborts the controller. *)
Lemma run_callbacks_timeout (cs : list callback) (w : world) :
  In TimeoutFires cs -> timeout_id w = Active \/ aborted w = true ->
  aborted (snd (run_callbacks E cs w)) = true.
Proof.
  revert w. induction cs as [| c cs IH]; intros w Hin Ht; [contradiction|].
  simpl. unfold bind.
  destruct (dispatch_evolves c w) as (w1 & H1 & Hev1 & _). rewrite H1.
  destruct (run_callbacks_evolves cs w1) as (w2 & H2 & Hev2 & _).
  assert (Hfired : c = TimeoutFires -> aborted w1 = true).
  { intros ->. unfold dispatch in H1. destruct Ht as [Ht | Ht].
    - rewrite Ht in H1. inversion H1. reflexivity.
    - apply (aborted_stays _ _ Hev1 Ht). }
  destruct Hin as [-> | Hin].
  - rewrite H2. simpl. apply (aborted_stays _ _ Hev2). now apply Hfired.
  - apply IH; [assumption|].
    destruct c.
    + destruct Ht as [Ht | Ht]; [| right; apply (aborted_stays _ _ Hev1 Ht)].
      left. unfold dispatch in H1.
      destruct (close_listener w && negb (closed w)); inversion H1; subst; simpl; assumption.
    + right. now apply Hfired.
    + destruct Ht as [Ht | Ht]; [| right; apply (aborted_stays _ _ Hev1 Ht)].
      left. unfold dispatch in H1.
      destruct (heartbeat w); try (inversion H1; subst; assumption).
      revert H1. unfold heartbeat_tick, try_catch, res_write.
      destruct (write_ok E (write_attempts w)); intros H1; inversion H1; subst; simpl;
        assumption.
Qed.

End Callbacks.

(** ** The upstream call *)

Section Requests.

Variable process_env : string -> option string.
Variable E : environment.

Lemma fetch_evolves (rq : request) (w : world) :
  exists w',
    fetch E rq w =
      (match fetch_settles E with Resolved r => Return r | Rejected e => Throw e end, w')
    /\ evolves (set_requests w (requests w ++ [rq])) w'.
Proof.
  unfold fetch, bind, update.
  destruct (run_callbacks_evolves E (fetch_callbacks E)
              (set_requests w (requests w ++ [rq]))) as (w' & Hrun & Hev & _).
  exists w'. rewrite Hrun. split; [| exact Hev].
  destruct (fetch_settles E); reflexivity.
Qed.

Lemma text_or_null_evolves (r : response) (w : world) :
  exists w', text_or_null E r w = (Return (text_body r), w') /\ evolves w w'.
Proof.
  unfold text_or_null, bind.
  destruct (run_callbacks_evolves E (text_callbacks E) w) as (w' & Hrun & Hev & _).
  exists w'. rewrite Hrun. split; [reflexivity | exact Hev].
Qed.

(** A request that passes both checks and whose upstream answers with a
    success status gets status 200 and the extracted reply. *)
Lemma chat_resolved (req_body : jsval) (r : response) :
  JS.truthy (message_of req_body) = true ->
  configured (GEMINI_API_KEY process_env) = true ->
  fetch_settles E = Resolved r ->
  ok r = true ->
  replies (gemini_chat process_env E req_body fresh)
          (object [("reply", extract_reply (parsed r))]).
Proof.
  intros Hm Hk Hs Hok.
  enter_handler. rewrite Hm, Hk.
  unfold try_catch, chat_try, bind, new_AbortController, setTimeout_abort, update.
  cbv beta iota delta [negb].
  match goal with
  | |- context [fetch E ?rq ?w] => destruct (fetch_evolves rq w) as (w' & Hf & Hev)
  end.
  rewrite Hf, Hs, Hok. simpl.
  destruct Hev as [Hst _ _ _ _ _ _ _ _ _ _ _ _]. simpl in Hst.
  unfold replies, parsed. simpl.
  destruct (timeout_id w'); simpl; auto.
Qed.


End Requests.

(** ** Validation (both handlers) *)

Section Validation.

Variable process_env : string -> option string.
Variable E : environment.
Variable decoder : TextDecoder.

Lemma falsy_message_rejected (req_body : jsval) :
  JS.truthy (message_of req_body) = false ->
  rejects (gemini_stream process_env E decoder req_body fresh) 400 "message required" /\
  rejects (gemini_chat process_env E req_body fresh) 400 "message required".
Proof.
  intros Hm. split; enter_handler; rewrite Hm; unfold rejects; simpl; auto 10.
Qed.

Lemma missing_key_rejected (req_body : jsval) :
  JS.truthy (message_of req_body) = true ->
  configured (GEMINI_API_KEY process_env) = false ->
  rejects (gemini_stream process_env E decoder req_body fresh)
          500 "GEMINI_API_KEY not configured in server" /\
  rejects (gemini_chat process_env E req_body fresh)
          500 "GEMINI_API_KEY not configured in server".
Proof.
  intros Hm Hk. split; enter_handler; rewrite Hm, Hk; unfold rejects; simpl; auto 10.
Qed.

Lemma no_object_no_message (req_body : jsval) :
  is_object req_body = false -> message_of req_body = None.
Proof.
  unfold message_of, JS.or.
  destruct req_body as [[| b | z | s | items | props]|]; simpl; try discriminate;
    intros _; try reflexivity.
  - destruct b; reflexivity.
  - destruct (negb (int_value z =? 0)%Z); reflexivity.
  - destruct (negb (s =? EmptyString)%string); reflexivity.
Qed.

(** C9, amended: a [req.body] that is absent or is not a JSON object, as
    the body parser may leave it, is answered by both handlers with status
    400 and [{ error: 'message required' }]; the handler returns instead of
    throwing, and calls neither [fetch] nor [res.write]. *)
Theorem C9_body_defaulted_to_empty_object (req_body : jsval) :
  is_object req_body = false ->
  rejects (gemini_stream process_env E decoder req_body fresh) 400 "message required" /\
  rejects (gemini_chat process_env E req_body fresh) 400 "message required".
Proof.
  intros Hb. apply falsy_message_rejected.
  rewrite (no_object_no_message _ Hb). reflexivity.
Qed.

(** C6, amended: a request whose prompt is empty or missing is rejected by
    both endpoints with status 400 and [{ error: 'message required' }],
    whether or not the credential is configured; a request whose prompt is
    present is, while the credential is not configured, rejected by both
    endpoints with status 500 and
    [{ error: 'GEMINI_API_KEY not configured in server' }].  Neither
    rejection calls [fetch] or writes to the event stream. *)
Theorem C6_rejected_before_upstream (req_body : jsval) :
  (JS.truthy (message_of req_body) = false ->
   rejects (gemini_stream process_env E decoder req_body fresh) 400 "message required" /\
   rejects (gemini_chat process_env E req_body fresh) 400 "message required") /\
  (JS.truthy (message_of req_body) = true ->
   configured (GEMINI_API_KEY process_env) = false ->
   rejects (gemini_stream process_env E decoder req_body fresh)
           500 "GEMINI_API_KEY not configured in server" /\
   rejects (gemini_chat process_env E req_body fresh)
           500 "GEMINI_API_KEY not configured in server").
Proof.
  split.
  - apply falsy_message_rejected.
  - apply missing_key_rejected.
Qed.

End Validation.

Lemma C9_witness :
  rejects (gemini_stream with_key hi_there ascii_decoder (Some (JArr [JStr "hi"])) fresh)
          400 "message required" /\
  rejects (gemini_chat with_key hi_there None fresh) 400 "message required".
Proof.
  split.
  - apply (C9_body_defaulted_to_empty_object with_key hi_there ascii_decoder
             (Some (JArr [JStr "hi"]))). reflexivity.
  - apply (C9_body_defaulted_to_empty_object with_key hi_there ascii_decoder None).
    reflexivity.
Defined.

(** C9 as stated fails: a POST whose JSON body is a string, which is not
    a JSON object, is answered by the body parser with its own 400; the
    handlers are not run and no [{ error: 'message required' }] is sent. *)
Lemma C9_counterexample :
  is_object (Some (JStr "hi")) = false /\
  express_json (Some (JObj [])) (JsonText (JStr "hi")) = inr 400 /\
  json_sent (snd (post (Some (JObj [])) "POST /api/gemini_stream"
                       (gemini_stream with_key hi_there ascii_decoder)
                       (JsonText (JStr "hi")) fresh)) = None /\
  ~ rejects (post (Some (JObj [])) "POST /api/gemini_stream"
                  (gemini_stream with_key hi_there ascii_decoder)
                  (JsonText (JStr "hi")) fresh)
            400 "message required" /\
  ~ rejects (post (Some (JObj [])) "POST /api/gemini_chat"
                  (gemini_chat with_key hi_there)
                  (JsonText (JStr "hi")) fresh)
            400 "message required".
Proof.
  split; [reflexivity|]. split; [reflexivity|]. split; [reflexivity|].
  split; intros (_ & _ & Hsent & _); discriminate Hsent.
Qed.

Lemma C6_witness :
  rejects (gemini_chat with_key hi_there (Some (JObj [("message", JStr EmptyString)])) fresh)
          400 "message required" /\
  rejects (gemini_stream without_key hi_there ascii_decoder hi fresh)
          500 "GEMINI_API_KEY not configured in server".
Proof.
  split.
  - apply (C6_rejected_before_upstream with_key hi_there ascii_decoder
             (Some (JObj [("message", JStr EmptyString)]))). reflexivity.
  - apply (C6_rejected_before_upstream without_key hi_there ascii_decoder hi);
      reflexivity.
Defined.

(** C6 as stated fails: with the credential not configured, a request
    without a prompt is answered 400 [message required], not 500. *)
Lemma C6_counterexample :
  configured (GEMINI_API_KEY without_key) = false /\
  status_code (snd (gemini_stream without_key hi_there ascii_decoder (Some (JObj [])) fresh))
    = 400 /\
  ~ rejects (gemini_stream without_key hi_there ascii_decoder (Some (JObj [])) fresh)
            500 "GEMINI_API_KEY not configured in server".
Proof.
  split; [reflexivity|]. split; [reflexivity|].
  intros (_ & Hcode & _). discriminate Hcode.
Qed.

(** ** Reply extraction (non-streaming handler) *)

Section Reply.

Variable process_env : string -> option string.
Variable E : environment.

(** C8: when the upstream answers with a success status, the reply is the
    first of [candidates[0].output], [output[0].content] that is usable,
    else the serialized payload; the payload
    [{ candidates: [{ output: "hi there" }] }] gives
    [{ reply: "hi there" }]. *)
Theorem C8_reply_first_match_wins (req_body : jsval) (r : response) :
  JS.truthy (message_of req_body) = true ->
  configured (GEMINI_API_KEY process_env) = true ->
  fetch_settles E = Resolved r ->
  ok r = true ->
  replies (gemini_chat process_env E req_body fresh)
          (object [("reply", fallback_chain (parsed r))]) /\
  (parsed r = JObj [("candidates", JArr [JObj [("output", JStr "hi there")]])] ->
   replies (gemini_chat process_env E req_body fresh) (JObj [("reply", JStr "hi there")])).
Proof.
  intros Hm Hk Hs Hok.
  pose proof (chat_resolved process_env E req_body r Hm Hk Hs Hok) as H.
  rewrite extract_reply_chain in H.
  split; [exact H|].
  intros Hdata. rewrite Hdata in H. exact H.
Qed.

(** C10: when the upstream answers with a success status and a body that
    is not JSON, the endpoint answers 200 with the reply ["null"]; when
    both extracted fields are falsy, it answers 200 with the serialized
    payload as the reply. *)
Theorem C10_fallback_is_serialization (req_body : jsval) (r : response) :
  JS.truthy (message_of req_body) = true ->
  configured (GEMINI_API_KEY process_env) = true ->
  fetch_settles E = Resolved r ->
  ok r = true ->
  (json_body r = None ->
   replies (gemini_chat process_env E req_body fresh) (JObj [("reply", JStr "null")])) /\
  (forall data : json,
      json_body r = Some data ->
      JS.truthy (candidates_shape data) = false ->
      JS.truthy (output_shape data) = false ->
      replies (gemini_chat process_env E req_body fresh)
              (JObj [("reply", JStr (JS.stringify data))])).
Proof.
  intros Hm Hk Hs Hok.
  pose proof (chat_resolved process_env E req_body r Hm Hk Hs Hok) as H.
  rewrite extract_reply_chain in H. unfold parsed in H.
  split.
  - intros Hj. rewrite Hj in H. exact H.
  - intros data Hj Hc Ho. rewrite Hj in H.
    unfold fallback_chain in H. rewrite Hc, Ho in H. exact H.
Qed.

End Reply.

Lemma C8_witness :
  replies (gemini_chat with_key hi_there hi fresh) (JObj [("reply", JStr "hi there")]).
Proof.
  apply (C8_reply_first_match_wins with_key hi_there hi
           (json_response
              (Some (JObj [("candidates", JArr [JObj [("output", JStr "hi there")]])]))));
    reflexivity.
Defined.

Lemma C10_witness :
  replies (gemini_chat with_key unparseable hi fresh) (JObj [("reply", JStr "null")]) /\
  replies (gemini_chat with_key
             (mkEnv every_write_returns [] (Resolved (json_response (Some empty_output))) [])
             hi fresh)
          (JObj [("reply", JStr (JS.stringify empty_output))]).
Proof.
  split.
  - apply (C10_fallback_is_serialization with_key unparseable hi (json_response None));
      reflexivity.
  - apply (C10_fallback_is_serialization with_key
             (mkEnv every_write_returns [] (Resolved (json_response (Some empty_output))) [])
             hi (json_response (Some empty_output))); reflexivity.
Defined.

(** ** The streaming handler, path by path *)

Lemma in_flight_evolves (w w' : world) : in_flight w -> evolves w w' -> in_flight w'.
Proof.
  intros [Hl Ht He Hc Hh] Hev. destruct Hev.
  constructor; try congruence.
  - rewrite cleared_on_close0, Hc.
    destruct (closed w) eqn:Hw; [rewrite (closed_stays0 eq_refl) | destruct (closed w')];
      reflexivity.
  - rewrite heartbeat_on_close0, Hh.
    destruct (closed w) eqn:Hw; [rewrite (closed_stays0 eq_refl) | destruct (closed w')];
      reflexivity.
Qed.

Lemma in_flight_opened : in_flight opened.
Proof. constructor; reflexivity. Qed.

Section Stream.

Variable process_env : string -> option string.
Variable E : environment.
Variable D : TextDecoder.

Lemma stream_opened (req_body : jsval) :
  JS.truthy (message_of req_body) = true ->
  configured (GEMINI_API_KEY process_env) = true ->
  gemini_stream process_env E D req_body fresh =
  try_catch (stream_try process_env E D (message_of req_body)) (stream_catch E) opened.
Proof.
  intros Hm Hk. enter_handler. rewrite Hm, Hk. reflexivity.
Qed.

(** The loop writes chunk events only, and none once [closed] is set. *)
Lemma relay_loop_evolves (reads : list read_step) (d : decoder_state D) (w : world) :
  exists res w', relay_loop E D reads d w = (res, w') /\ evolves w w'.
Proof.
  revert d w. induction reads as [| r rest IH]; intros d w.
  - exists Pending, w. split; [reflexivity | apply evolves_refl].
  - simpl. unfold bind.
    destruct (run_callbacks_evolves E (read_callbacks r) w) as (w1 & H1 & Hev1 & _).
    rewrite H1.
    destruct (read_settles r) as [[value |] | e]; simpl.
    + destruct (decode D d value) as [chunk d'].
      unfold read. destruct (closed w1) eqn:Hc1.
      * exists (Return tt), w1. split; [reflexivity | assumption].
      * unfold try_catch, res_write, bind.
        destruct (write_ok E (write_attempts w1)); simpl.
        -- match goal with
           | |- context [relay_loop E D rest d' ?w2] =>
               destruct (IH d' w2) as (res & w' & Hrun & Hev2);
               exists res, w'; split; [exact Hrun|];
               apply (evolves_trans _ _ _ Hev1);
               refine (evolves_trans _ _ _ _ Hev2)
           end.
           evolves_fields w1.
        -- eexists _, _. split; [reflexivity|].
           apply (evolves_trans _ _ _ Hev1). evolves_fields w1.
    + exists (Return tt), w1. split; [reflexivity | assumption].
    + exists (Throw e), w1. split; [reflexivity | assumption].
Qed.

(** [if(!closed) res.write(e); clearInterval(heartbeat); res.end()] for
    a terminal event [e]: it returns having wound the session up, or the
    write throws and nothing was sent. *)
Lemma wind_up_outcome (e : sse) (w : world) :
  in_flight w ->
  exists res w',
    (unless_closed E e ;; clearInterval_heartbeat ;; res_end) w = (res, w') /\
    closed w' = closed w /\
    (closed w = true -> written w' = written w /\ res = Return tt) /\
    match res with
    | Return _ => wound_up w' /\ ended w' = true
    | Throw _ => in_flight w'
    | Pending => False
    end.
Proof.
  intros [Hl Ht He Hc Hh].
  unfold unless_closed, bind, read, when, res_write.
  destruct (closed w) eqn:Hw; simpl.
  - eexists _, _. split; [reflexivity|]. simpl. rewrite Hw.
    repeat split; simpl; rewrite ?Hw; try congruence.
    unfold terminal_events in *. simpl. rewrite Ht. simpl. lia.
  - destruct (write_ok E (write_attempts w)); simpl.
    + eexists _, _. split; [reflexivity|]. simpl. rewrite Hw.
      repeat split; simpl; rewrite ?Hw; try congruence.
      unfold terminal_events in *. simpl. rewrite filter_app, Ht. simpl.
      destruct (is_terminal e); simpl; lia.
    + eexists _, _. split; [reflexivity|]. simpl.
      repeat split; simpl; rewrite ?Hw; try congruence. exact Ht.
Qed.

(** The [catch] block: it clears the heartbeat, then sends one error event
    unless [closed] is set. *)
Lemma stream_catch_outcome (err : exn) (w : world) :
  in_flight w ->
  exists res w',
    stream_catch E err w = (res, w') /\
    closed w' = closed w /\
    (closed w = true -> written w' = written w /\ res = Return tt) /\
    wound_up w' /\
    res <> Pending.
Proof.
  intros [Hl Ht He Hc Hh].
  unfold stream_catch, unless_closed, bind, read, when, res_write, console_line,
    clearInterval_heartbeat, update.
  destruct (is_abort err); simpl; destruct (closed w) eqn:Hw; simpl;
    try destruct (write_ok E (write_attempts w)); simpl;
    (eexists _, _; split; [reflexivity|]); simpl;
    (repeat split; simpl; rewrite ?Hw; try congruence);
    unfold terminal_events in *; simpl; rewrite ?filter_app, Ht; simpl; lia.
Qed.

Lemma relay_response_outcome (upstream : response) (w : world) :
  in_flight w ->
  exists res w',
    relay_response E D upstream w = (res, w') /\
    (closed w = true -> closed w' = true /\ written w' = written w) /\
    match res with
    | Return _ => wound_up w'
    | _ => in_flight w'
    end.
Proof.
  intros Hw.
  assert (Hfrozen : forall w1, evolves w w1 -> closed w = true ->
                               closed w1 = true /\ written w1 = written w).
  { intros w1 Hev Hc. split; [apply (closed_stays _ _ Hev Hc)|].
    apply (frozen_when_closed _ _ Hev Hc).
    rewrite (heartbeat_by_listener _ Hw), Hc. discriminate. }
  assert (Hwind : forall e w1,
             evolves w w1 ->
             exists res w',
               (unless_closed E e ;; clearInterval_heartbeat ;; res_end) w1 = (res, w') /\
               (closed w = true -> closed w' = true /\ written w' = written w) /\
               match res with
               | Return _ => wound_up w'
               | _ => in_flight w'
               end).
  { intros e w1 Hev.
    destruct (wind_up_outcome e w1 (in_flight_evolves _ _ Hw Hev))
      as (res & w' & Hrun & Hc & Hfr & Hres).
    exists res, w'. split; [exact Hrun|]. split.
    - intros Hcw. destruct (Hfrozen w1 Hev Hcw) as [Hc1 Hw1].
      destruct (Hfr Hc1). split; congruence.
    - destruct res; tauto. }
  assert (Hclear : evolves w (snd (clearTimeout_id w))).
  { unfold clearTimeout_id, update. simpl.
    destruct (timeout_id w); try apply evolves_refl. evolves_fields w. }
  unfold relay_response, bind at 1.
  change (clearTimeout_id w) with (Return tt, snd (clearTimeout_id w)).
  set (w0 := snd (clearTimeout_id w)) in *. cbv iota.
  destruct (ok upstream); cbv beta iota delta [negb].
  - destruct (body upstream) as [[reads |] |].
    + unfold bind at 1, getReader, ret at 1. cbv beta iota.
      unfold bind at 1. cbv beta.
      destruct (relay_loop_evolves reads (decoder_fresh D) w0) as (res & w1 & Hrun & Hev).
      rewrite Hrun.
      pose proof (evolves_trans _ _ _ Hclear Hev) as Hev1.
      destruct res as [[] | e |].
      * apply Hwind. assumption.
      * exists (Throw e), w1. split; [reflexivity|].
        split; [intros Hc; now apply Hfrozen | now apply (in_flight_evolves w)].
      * exists Pending, w1. split; [reflexivity|].
        split; [intros Hc; now apply Hfrozen | now apply (in_flight_evolves w)].
    + eexists (Throw _), w0. split; [reflexivity|].
      split; [intros Hc; now apply Hfrozen | now apply (in_flight_evolves w)].
    + apply Hwind. assumption.
  - unfold bind at 1. cbv beta.
    destruct (text_or_null_evolves E upstream w0) as (w1 & Hrun & Hev). rewrite Hrun.
    unfold bind at 1, console_line at 1, update at 1. cbv beta iota.
    apply Hwind. apply (evolves_trans _ _ _ Hclear).
    apply (evolves_trans _ _ _ Hev). evolves_fields w1.
Qed.

(** The whole [try]/[catch].  Unless the handler is left waiting for the
    upstream, the session ends wound up. *)
Lemma stream_outcome (message : jsval) :
  exists res w',
    try_catch (stream_try process_env E D message) (stream_catch E) opened = (res, w') /\
    match res with
    | Pending => in_flight w'
    | _ => wound_up w'
    end.
Proof.
  unfold try_catch, stream_try, bind at 1, setTimeout_abort, update.
  unfold bind at 1.
  match goal with
  | |- context [fetch E ?rq ?w] => destruct (fetch_evolves E rq w) as (w1 & Hf & Hev)
  end.
  rewrite Hf.
  assert (Hw1 : in_flight w1).
  { refine (in_flight_evolves _ _ _ Hev). constructor; reflexivity. }
  destruct (fetch_settles E) as [upstream | e].
  - destruct (relay_response_outcome upstream w1 Hw1) as (res & w2 & Hrun & _ & Hres).
    rewrite Hrun. destruct res as [[] | e |].
    + exists (Return tt), w2. split; [reflexivity | assumption].
    + destruct (stream_catch_outcome e w2 Hres) as (res & w3 & Hc & _ & _ & Hwu & Hnp).
      exists res, w3. split; [exact Hc|]. destruct res; tauto.
    + exists Pending, w2. split; [reflexivity | assumption].
  - destruct (stream_catch_outcome e w1 Hw1) as (res & w3 & Hc & _ & _ & Hwu & Hnp).
    exists res, w3. split; [exact Hc|]. destruct res; tauto.
Qed.

End Stream.

(** ** Terminal events and the heartbeat timer *)

Section Session.

Variable process_env : string -> option string.
Variable E : environment.
Variable D : TextDecoder.

(** C2: on every path of the streaming handler the client is sent at most
    one terminal event, the completion marker or one error event. *)
Theorem C2_at_most_one_terminal_event (req_body : jsval) :
  List.length (terminal_events (snd (gemini_stream process_env E D req_body fresh))) <= 1.
Proof.
  destruct (JS.truthy (message_of req_body)) eqn:Hm.
  - destruct (configured (GEMINI_API_KEY process_env)) eqn:Hk.
    + rewrite (stream_opened process_env E D req_body Hm Hk).
      destruct (stream_outcome process_env E D (message_of req_body))
        as (res & w & Hrun & Hres).
      rewrite Hrun. simpl.
      destruct res; try apply (one_terminal_at_most _ Hres).
      rewrite (nothing_terminal _ Hres). simpl. lia.
    + destruct (missing_key_rejected process_env E D req_body Hm Hk)
        as [(_ & _ & _ & _ & _ & Hw) _].
      unfold terminal_events. rewrite Hw. simpl. lia.
  - destruct (falsy_message_rejected process_env E D req_body Hm)
      as [(_ & _ & _ & _ & _ & Hw) _].
    unfold terminal_events. rewrite Hw. simpl. lia.
Qed.

(** C5, amended: for a request that passes validation, once the handler
    has finished (returned or thrown) the heartbeat timer is cleared; the
    handler itself calls [clearInterval] exactly once, and the close
    listener calls it once more if the client disconnected. *)
Theorem C5_heartbeat_cleared_by_handler_and_listener (req_body : jsval) :
  JS.truthy (message_of req_body) = true ->
  configured (GEMINI_API_KEY process_env) = true ->
  fst (gemini_stream process_env E D req_body fresh) <> Pending ->
  heartbeat (snd (gemini_stream process_env E D req_body fresh)) = Cleared /\
  clearInterval_calls (snd (gemini_stream process_env E D req_body fresh)) =
    S (if closed (snd (gemini_stream process_env E D req_body fresh)) then 1 else 0).
Proof.
  intros Hm Hk. rewrite (stream_opened process_env E D req_body Hm Hk).
  destruct (stream_outcome process_env E D (message_of req_body))
    as (res & w & Hrun & Hres).
  rewrite Hrun. simpl. intros Hp.
  destruct res; try contradiction;
    (split; [apply (heartbeat_cleared _ Hres) | apply (cleared_by_handler _ Hres)]).
Qed.

End Session.

Lemma C5_witness :
  heartbeat (snd (gemini_stream with_key he_llo ascii_decoder hi fresh)) = Cleared /\
  clearInterval_calls (snd (gemini_stream with_key he_llo ascii_decoder hi fresh)) = 1.
Proof.
  apply (C5_heartbeat_cleared_by_handler_and_listener with_key he_llo ascii_decoder hi);
    [reflexivity | reflexivity | discriminate].
Defined.

(** C5 as stated fails: when the client leaves while the upstream call is
    pending, [clearInterval(heartbeat)] is called by the close listener and
    again by the [catch] block. *)
Lemma C5_counterexample :
  fst (gemini_stream with_key client_leaves_early ascii_decoder hi fresh) = Return tt /\
  clearInterval_calls (snd (gemini_stream with_key client_leaves_early ascii_decoder hi fresh))
    = 2 /\
  clearInterval_calls (snd (gemini_stream with_key client_leaves_early ascii_decoder hi fresh))
    <> 1.
Proof. repeat split. discriminate. Qed.

(** ** The relay on a given script *)

Section Paths.

Variable process_env : string -> option string.
Variable E : environment.
Variable D : TextDecoder.

Lemma run_callbacks_returns (cs : list callback) (w : world) :
  run_callbacks E cs w = (Return tt, snd (run_callbacks E cs w)).
Proof.
  destruct (run_callbacks_evolves E cs w) as (w' & Hrun & _). rewrite Hrun. reflexivity.
Qed.

Lemma run_callbacks_after (cs : list callback) (w : world) :
  evolves w (snd (run_callbacks E cs w)) /\
  data_events (snd (run_callbacks E cs w)) = data_events w.
Proof.
  destruct (run_callbacks_evolves E cs w) as (w' & Hrun & Hev & Hd). rewrite Hrun. auto.
Qed.

Lemma stream_fetched (req_body : jsval) :
  JS.truthy (message_of req_body) = true ->
  configured (GEMINI_API_KEY process_env) = true ->
  gemini_stream process_env E D req_body fresh =
  match fetch_settles E with
  | Resolved upstream =>
      try_catch (relay_response E D upstream) (stream_catch E)
                (fetched process_env E (message_of req_body))
  | Rejected e => stream_catch E e (fetched process_env E (message_of req_body))
  end.
Proof.
  intros Hm Hk. rewrite (stream_opened process_env E D req_body Hm Hk).
  unfold try_catch, stream_try, bind at 1, setTimeout_abort, update.
  unfold bind at 1, fetch, bind at 1, update. cbv beta iota.
  unfold bind at 1. simpl set_requests.
  change (requests opened ++ [upstream_request process_env (message_of req_body)])
    with [upstream_request process_env (message_of req_body)].
  rewrite run_callbacks_returns. fold (fetched process_env E (message_of req_body)).
  destruct (fetch_settles E); reflexivity.
Qed.

Lemma fetched_in_flight (message : jsval) :
  in_flight (fetched process_env E message) /\ data_events (fetched process_env E message) = [].
Proof.
  unfold fetched.
  match goal with
  | |- context [run_callbacks E ?cs ?w] => destruct (run_callbacks_after cs w) as [Hev Hd]
  end.
  split; [| rewrite Hd; reflexivity].
  refine (in_flight_evolves _ _ _ Hev). constructor; reflexivity.
Qed.

(** A run of reads that each yield a chunk, with the client connected and
    the writes returning: one chunk event per read, in order. *)
Lemma relay_loop_prefix (pre rest : list read_step) :
  forall (values : list (list Byte.byte)) (d : decoder_state D) (w : world),
    map read_settles pre = map (fun v => Resolved (Chunk v)) values ->
    Forall (fun s => ~ In ReqClose (read_callbacks s)) pre ->
    (forall n, write_ok E n = true) ->
    closed w = false ->
    exists w',
      relay_loop E D (pre ++ rest) d w = relay_loop E D rest (decoder_after D d values) w' /\
      evolves w w' /\
      closed w' = false /\
      data_events w' = data_events w ++ map DataChunk (decoded D d values).
Proof.
  induction pre as [| s pre IH]; intros values d w Hmap Hquiet Hok Hc.
  - destruct values; [| discriminate].
    exists w. simpl. rewrite app_nil_r. auto using evolves_refl.
  - destruct values as [| v values]; [discriminate|].
    simpl in Hmap. injection Hmap as Hs Hmap.
    inversion Hquiet as [| ? ? Hs_quiet Hpre_quiet]; subst.
    simpl app. simpl relay_loop. unfold bind at 1.
    rewrite run_callbacks_returns.
    destruct (run_callbacks_after (read_callbacks s) w) as [Hev1 Hd1].
    pose proof (run_callbacks_no_close E (read_callbacks s) w Hs_quiet) as Hc1.
    set (w1 := snd (run_callbacks E (read_callbacks s) w)) in *.
    rewrite Hs. simpl settle. unfold bind at 1, ret at 1. cbv beta iota.
    simpl decoded. simpl decoder_after.
    destruct (decode D d v) as [chunk d'] eqn:Hdec. simpl fst. simpl snd.
    unfold bind at 1, read at 1. rewrite Hc1, Hc. cbv beta iota.
    unfold bind at 1, try_catch at 1, bind at 1, res_write at 1.
    rewrite Hok. cbv beta iota zeta. unfold ret at 1. cbv beta iota.
    match goal with
    | |- context [relay_loop E D (pre ++ rest) d' ?w2] =>
        destruct (IH values d' w2 Hmap Hpre_quiet Hok) as (w' & Hrun & Hev2 & Hc' & Hd');
        [simpl; congruence|];
        assert (Hstep : evolves w1 w2) by (evolves_fields w1)
    end.
    exists w'. split; [exact Hrun|]. split.
    + eapply evolves_trans; [exact Hev1|]. eapply evolves_trans; eassumption.
    + split; [exact Hc'|].
      rewrite Hd'. unfold data_events at 1. simpl written. rewrite filter_app.
      fold (data_events w1). rewrite Hd1. simpl. rewrite <- app_assoc. reflexivity.
Qed.

Lemma clearTimeout_id_after (w : world) :
  clearTimeout_id w = (Return tt, snd (clearTimeout_id w)) /\
  evolves w (snd (clearTimeout_id w)) /\
  closed (snd (clearTimeout_id w)) = closed w /\
  data_events (snd (clearTimeout_id w)) = data_events w.
Proof.
  unfold clearTimeout_id, update. simpl.
  destruct (timeout_id w);
    (split; [reflexivity|]); (split; [| split; reflexivity]);
    try apply evolves_refl.
  evolves_fields w.
Qed.

(** With a body that has a reader, the [try] goes on to the loop. *)
Lemma relay_response_readable (upstream : response) (reads : list read_step) (w : world) :
  ok upstream = true ->
  body upstream = Some (ReadableStream reads) ->
  relay_response E D upstream w =
  (clearTimeout_id ;;
   relay_loop E D reads (decoder_fresh D) ;;
   unless_closed E DataDone ;;
   clearInterval_heartbeat ;;
   res_end) w.
Proof.
  intros Hok Hbody. unfold relay_response, bind, getReader, ret.
  rewrite Hok, Hbody. reflexivity.
Qed.

(** X17: given a body that has a reader: when the upstream answers with a
    success status and a [ReadableStream] whose reader yields the chunks
    [values] and then completes, no 'close' event occurs and every write
    returns, the data events sent are the decoded chunks, one event per
    chunk in the upstream's order, followed by one [[DONE]] and nothing
    else. *)
Theorem X17_readable_stream_relayed_in_order
        (req_body : jsval) (upstream : response)
        (reads : list read_step) (values : list (list Byte.byte)) :
  JS.truthy (message_of req_body) = true ->
  configured (GEMINI_API_KEY process_env) = true ->
  fetch_settles E = Resolved upstream ->
  ok upstream = true ->
  body upstream = Some (ReadableStream reads) ->
  map read_settles reads = map (fun v => Resolved (Chunk v)) values ++ [Resolved Done] ->
  ~ In ReqClose (fetch_callbacks E) ->
  Forall (fun s => ~ In ReqClose (read_callbacks s)) reads ->
  (forall n, write_ok E n = true) ->
  fst (gemini_stream process_env E D req_body fresh) = Return tt /\
  data_events (snd (gemini_stream process_env E D req_body fresh)) =
    map DataChunk (decoded D (decoder_fresh D) values) ++ [DataDone] /\
  ended (snd (gemini_stream process_env E D req_body fresh)) = true.
Proof.
  intros Hm Hk Hs Hok Hbody Hreads Hfetch_quiet Hquiet Hwrites.
  rewrite (stream_fetched req_body Hm Hk), Hs.
  destruct (fetched_in_flight (message_of req_body)) as [_ Hd].
  assert (Hc : closed (fetched process_env E (message_of req_body)) = false).
  { unfold fetched. rewrite run_callbacks_no_close by assumption. reflexivity. }
  set (wf := fetched process_env E (message_of req_body)) in *.
  destruct (clearTimeout_id_after wf) as (Hrun0 & _ & Hc0 & Hd0).
  set (w0 := snd (clearTimeout_id wf)) in *.
  apply map_eq_app in Hreads. destruct Hreads as (pre & tl & -> & Hpre & Htl).
  destruct tl as [| last [| ? ?]]; try discriminate.
  simpl in Htl. injection Htl as Hlast.
  apply Forall_app in Hquiet. destruct Hquiet as [Hpre_quiet Hlast_quiet].
  inversion Hlast_quiet as [| ? ? Hlast_q _]; subst.
  destruct (relay_loop_prefix pre [last] values (decoder_fresh D) w0 Hpre Hpre_quiet Hwrites)
    as (w1 & Hloop & _ & Hc1 & Hd1); [congruence|].
  pose proof (run_callbacks_no_close E (read_callbacks last) w1 Hlast_q) as Hc2.
  destruct (run_callbacks_after (read_callbacks last) w1) as [_ Hd2].
  set (w2 := snd (run_callbacks E (read_callbacks last) w1)) in *.
  assert (Hrun : exists w',
             try_catch (relay_response E D upstream) (stream_catch E) wf = (Return tt, w') /\
             data_events w' = data_events w2 ++ [DataDone] /\
             ended w' = true).
  { unfold try_catch. rewrite (relay_response_readable upstream _ wf Hok Hbody).
    unfold bind. rewrite Hrun0. cbv beta iota. rewrite Hloop.
    simpl relay_loop. unfold bind. rewrite run_callbacks_returns, Hlast.
    fold w2. simpl settle. unfold ret, unless_closed, bind, read, when, res_write.
    cbv beta iota. rewrite Hc2, Hc1. cbv beta iota delta [negb]. rewrite Hwrites.
    eexists. split; [reflexivity|]. split; [| reflexivity].
    unfold data_events. simpl. rewrite filter_app. reflexivity. }
  destruct Hrun as (w' & Hrun & Hdata & Hend). rewrite Hrun. simpl.
  repeat split; [| exact Hend].
  rewrite Hdata, Hd2, Hd1, Hd0, Hd. reflexivity.
Qed.

End Paths.

Lemma X17_witness :
  data_events (snd (gemini_stream with_key he_llo ascii_decoder hi fresh)) =
    [DataChunk "He"; DataChunk "llo"; DataDone] /\
  map render (data_events (snd (gemini_stream with_key he_llo ascii_decoder hi fresh))) =
    map render [DataChunk "He"; DataChunk "llo"; DataDone].
Proof.
  assert (H : data_events (snd (gemini_stream with_key he_llo ascii_decoder hi fresh)) =
              [DataChunk "He"; DataChunk "llo"; DataDone]).
  { apply (X17_readable_stream_relayed_in_order
             with_key he_llo ascii_decoder hi
             (streaming_response
                [chunk_read [] "He"; chunk_read [HeartbeatTick] "llo"; mkRead [] (Resolved Done)])
             [chunk_read [] "He"; chunk_read [HeartbeatTick] "llo"; mkRead [] (Resolved Done)]
             [list_byte_of_string "He"; list_byte_of_string "llo"]);
      try reflexivity.
    - simpl. intuition discriminate.
    - repeat constructor; simpl; intuition discriminate.
  }
  split; [exact H | rewrite H; reflexivity].
Defined.

(** ** Timeout *)

Section TimedOut.

Variable process_env : string -> option string.
Variable E : environment.
Variable D : TextDecoder.


End TimedOut.


(** ** Client disconnect *)

Section Disconnect.

Variable process_env : string -> option string.
Variable E : environment.
Variable D : TextDecoder.

(** The read during which the client leaves is the last one, and nothing
    is written for it. *)
Lemma relay_loop_closing (mid : read_step) (post : list read_step)
      (d : decoder_state D) (w : world) :
  In ReqClose (read_callbacks mid) ->
  in_flight w ->
  exists res w',
    relay_loop E D (mid :: post) d w = (res, w') /\
    res <> Pending /\
    closed w' = true /\
    data_events w' = data_events w /\
    in_flight w'.
Proof.
  intros Hin Hw.
  pose proof (run_callbacks_close E (read_callbacks mid) w Hin (listener_registered _ Hw))
    as Hc1.
  destruct (run_callbacks_after E (read_callbacks mid) w) as [Hev1 Hd1].
  pose proof (in_flight_evolves _ _ Hw Hev1) as Hw1.
  simpl relay_loop. unfold bind at 1. rewrite run_callbacks_returns.
  remember (snd (run_callbacks E (read_callbacks mid) w)) as w1 eqn:Heq. clear Heq.
  destruct (read_settles mid) as [[value |] | e];
    unfold settle, bind, ret, throw; cbv beta iota.
  - destruct (decode D d value) as [chunk d'].
    unfold read. cbv beta iota. rewrite Hc1.
    exists (Return tt), w1. split; [reflexivity|]. split; [discriminate | auto].
  - exists (Return tt), w1. split; [reflexivity|]. split; [discriminate | auto].
  - exists (Throw e), w1. split; [reflexivity|]. split; [discriminate | auto].
Qed.

(** C4: once the client has disconnected, no data event is sent.  If the
    client leaves while the upstream call is pending, none is sent at all;
    if it leaves after the chunks [values] were relayed, while the next
    read is pending, the data events sent are those chunks and nothing
    more, with no [[DONE]], whatever the upstream still has to say. *)
Theorem C4_nothing_sent_after_disconnect (req_body : jsval) :
  JS.truthy (message_of req_body) = true ->
  configured (GEMINI_API_KEY process_env) = true ->
  (In ReqClose (fetch_callbacks E) ->
   data_events (snd (gemini_stream process_env E D req_body fresh)) = []) /\
  (forall (upstream : response) (pre : list read_step) (mid : read_step)
          (post : list read_step) (values : list (list Byte.byte)),
      fetch_settles E = Resolved upstream ->
      ok upstream = true ->
      body upstream = Some (ReadableStream (pre ++ mid :: post)) ->
      ~ In ReqClose (fetch_callbacks E) ->
      map read_settles pre = map (fun v => Resolved (Chunk v)) values ->
      Forall (fun s => ~ In ReqClose (read_callbacks s)) pre ->
      In ReqClose (read_callbacks mid) ->
      (forall n, write_ok E n = true) ->
      fst (gemini_stream process_env E D req_body fresh) = Return tt /\
      closed (snd (gemini_stream process_env E D req_body fresh)) = true /\
      data_events (snd (gemini_stream process_env E D req_body fresh)) =
        map DataChunk (decoded D (decoder_fresh D) values)).
Proof.
  intros Hm Hk.
  rewrite (stream_fetched process_env E D req_body Hm Hk).
  destruct (fetched_in_flight process_env E (message_of req_body)) as [Hfl Hd].
  split.
  - intros Hin.
    assert (Hc : closed (fetched process_env E (message_of req_body)) = true).
    { unfold fetched. apply run_callbacks_close; [assumption | reflexivity]. }
    remember (fetched process_env E (message_of req_body)) as wf eqn:Heq. clear Heq.
    destruct (fetch_settles E) as [upstream | e].
    + unfold try_catch.
      destruct (relay_response_outcome E D upstream wf Hfl) as (res & w1 & Hrun & Hfr & Hres).
      rewrite Hrun. destruct (Hfr Hc) as [Hc1 Hw1].
      destruct res as [[] | e |]; simpl.
      * unfold data_events in *. rewrite Hw1. exact Hd.
      * destruct (stream_catch_outcome E e w1 Hres) as (res & w2 & Hrun2 & _ & Hfr2 & _).
        rewrite Hrun2. simpl. destruct (Hfr2 Hc1) as [Hw2 _].
        unfold data_events in *. rewrite Hw2, Hw1. exact Hd.
      * unfold data_events in *. rewrite Hw1. exact Hd.
    + destruct (stream_catch_outcome E e wf Hfl) as (res & w2 & Hrun2 & _ & Hfr2 & _).
      rewrite Hrun2. simpl. destruct (Hfr2 Hc) as [Hw2 _].
      unfold data_events in *. rewrite Hw2. exact Hd.
  - intros upstream pre mid post values Hs Hok Hbody Hquiet Hpre Hpre_quiet Hmid Hwrites.
    rewrite Hs.
    assert (Hc : closed (fetched process_env E (message_of req_body)) = false).
    { unfold fetched. rewrite run_callbacks_no_close by assumption. reflexivity. }
    remember (fetched process_env E (message_of req_body)) as wf eqn:Heq. clear Heq.
    destruct (clearTimeout_id_after wf) as (Hrun0 & Hev0 & Hc0 & Hd0).
    remember (snd (clearTimeout_id wf)) as w0 eqn:Heq. clear Heq.
    destruct (relay_loop_prefix E D pre (mid :: post) values (decoder_fresh D) w0
                Hpre Hpre_quiet Hwrites)
      as (w1 & Hloop & Hev1 & Hc1 & Hd1); [congruence|].
    assert (Hfl1 : in_flight w1).
    { apply (in_flight_evolves wf); [assumption|]. eapply evolves_trans; eassumption. }
    destruct (relay_loop_closing mid post (decoder_after D (decoder_fresh D) values) w1
                Hmid Hfl1)
      as (res & w2 & Hstep & Hnp & Hc2 & Hd2 & Hfl2).
    assert (Hrun : exists w',
               try_catch (relay_response E D upstream) (stream_catch E) wf = (Return tt, w') /\
               closed w' = true /\ written w' = written w2).
    { unfold try_catch. rewrite (relay_response_readable E D upstream _ wf Hok Hbody).
      unfold bind. rewrite Hrun0. cbv beta iota. rewrite Hloop, Hstep.
      destruct res as [[] | e |]; [| | contradiction].
      - unfold unless_closed, bind, read, when. rewrite Hc2. simpl.
        eexists. split; [reflexivity|]. simpl. auto.
      - destruct (stream_catch_outcome E e w2 Hfl2) as (res & w3 & Hrun3 & Hc3 & Hfr3 & _).
        rewrite Hrun3. destruct (Hfr3 Hc2) as [Hw3 ->].
        exists w3. repeat split; congruence. }
    destruct Hrun as (w' & Hrun & Hc' & Hw'). rewrite Hrun. simpl.
    repeat split; [exact Hc'|].
    unfold data_events in *. rewrite Hw', Hd2, Hd1, Hd0, Hd. reflexivity.
Qed.

End Disconnect.

Lemma C4_witness :
  data_events (snd (gemini_stream with_key client_leaves_early ascii_decoder hi fresh)) = [] /\
  data_events (snd (gemini_stream with_key client_leaves_midway ascii_decoder hi fresh)) =
    [DataChunk "He"; DataChunk "llo"].
Proof.
  destruct (C4_nothing_sent_after_disconnect with_key client_leaves_early ascii_decoder hi
              eq_refl eq_refl) as [Hearly _].
  destruct (C4_nothing_sent_after_disconnect with_key client_leaves_midway ascii_decoder hi
              eq_refl eq_refl) as [_ Hmidway].
  split.
  - apply Hearly. simpl. auto.
  - apply (Hmidway
             (streaming_response
                [chunk_read [] "He"; chunk_read [HeartbeatTick] "llo";
                 chunk_read [ReqClose] " wor"; chunk_read [] "ld"; mkRead [] (Resolved Done)])
             [chunk_read [] "He"; chunk_read [HeartbeatTick] "llo"]
             (chunk_read [ReqClose] " wor")
             [chunk_read [] "ld"; mkRead [] (Resolved Done)]
             [list_byte_of_string "He"; list_byte_of_string "llo"]);
      try reflexivity.
    + simpl. tauto.
    + repeat constructor; simpl; intuition discriminate.
    + simpl. auto.
Defined.

(** ** A chunk write that fails *)

Section FailedWrite.

Variable process_env : string -> option string.
Variable E : environment.
Variable D : TextDecoder.







End FailedWrite.


(** * Further properties of the handlers *)

(** ** Invariants *)

Lemma preserves_ret (P : world -> Prop) {A : Type} (a : A) : preserves P (ret a).
Proof. intros w Hw. exact Hw. Qed.

Lemma preserves_throw (P : world -> Prop) {A : Type} (e : exn) : preserves P (@throw A e).
Proof. intros w Hw. exact Hw. Qed.

Lemma preserves_pending (P : world -> Prop) {A : Type} : preserves P (@pending A).
Proof. intros w Hw. exact Hw. Qed.

Lemma preserves_read (P : world -> Prop) {A : Type} (f : world -> A) : preserves P (read f).
Proof. intros w Hw. exact Hw. Qed.

Lemma preserves_bind (P : world -> Prop) {A B : Type} (m : M A) (k : A -> M B) :
  preserves P m -> (forall a, preserves P (k a)) -> preserves P (bind m k).
Proof.
  intros Hm Hk w Hw. unfold bind. specialize (Hm w Hw).
  destruct (m w) as [[a | e |] w1]; simpl in *; try assumption.
  apply Hk. assumption.
Qed.

Lemma preserves_try_catch (P : world -> Prop) {A : Type} (body : M A) (handler : exn -> M A) :
  preserves P body -> (forall e, preserves P (handler e)) -> preserves P (try_catch body handler).
Proof.
  intros Hb Hh w Hw. unfold try_catch. specialize (Hb w Hw).
  destruct (body w) as [[a | e |] w1]; simpl in *; try assumption.
  apply Hh. assumption.
Qed.

Lemma preserves_settle (P : world -> Prop) {A : Type} (s : settled A) : preserves P (settle s).
Proof. destruct s; [apply preserves_ret | apply preserves_throw]. Qed.

Section Invariants.

Variable E : environment.
Variable D : TextDecoder.
Variable P : world -> Prop.

Lemma run_callbacks_preserves (cs : list callback) :
  (forall c, preserves P (dispatch E c)) -> preserves P (run_callbacks E cs).
Proof.
  intros Hd. induction cs as [| c cs IH]; [apply preserves_ret|].
  simpl. apply preserves_bind; auto.
Qed.

Lemma unless_closed_preserves (e : sse) :
  stable_sync E P -> preserves P (unless_closed E e).
Proof.
  intros Hs. unfold unless_closed. apply preserves_bind; [apply preserves_read|].
  intros c. destruct c; simpl; [apply preserves_ret | apply (stable_write _ _ Hs)].
Qed.

Lemma wind_up_preserves (e : sse) :
  stable_sync E P ->
  preserves P (unless_closed E e ;; clearInterval_heartbeat ;; res_end).
Proof.
  intros Hs. apply preserves_bind; [now apply unless_closed_preserves|]. intros _.
  apply preserves_bind; [apply (stable_clearInterval _ _ Hs)|]. intros _.
  apply (stable_end _ _ Hs).
Qed.

Lemma relay_loop_preserves (reads : list read_step) :
  stable E P -> forall d, preserves P (relay_loop E D reads d).
Proof.
  intros Hs. destruct Hs as [Hsync Hct Hdisp].
  induction reads as [| r rest IH]; intros d; [apply preserves_pending|].
  simpl. apply preserves_bind; [now apply run_callbacks_preserves|]. intros _.
  apply preserves_bind; [apply preserves_settle|]. intros [value |]; [| apply preserves_ret].
  destruct (decode D d value) as [chunk d'].
  apply preserves_bind; [apply preserves_read|]. intros c.
  destruct c; [apply preserves_ret|].
  apply preserves_bind.
  - apply preserves_try_catch.
    + apply preserves_bind; [apply (stable_write _ _ Hsync)|]. intros _. apply preserves_ret.
    + intros _. apply preserves_bind; [apply (stable_console _ _ Hsync)|]. intros _.
      apply preserves_ret.
  - intros sent. destruct sent; [apply IH | apply preserves_ret].
Qed.

Lemma relay_response_preserves (upstream : response) :
  stable E P -> preserves P (relay_response E D upstream).
Proof.
  intros Hs. pose proof Hs as [Hsync Hct Hdisp].
  unfold relay_response. apply preserves_bind; [exact Hct|]. intros _.
  destruct (negb (ok upstream)).
  - apply preserves_bind.
    + unfold text_or_null. apply preserves_bind; [now apply run_callbacks_preserves|].
      intros _. apply preserves_ret.
    + intros _. apply preserves_bind; [apply (stable_console _ _ Hsync)|]. intros _.
      now apply wind_up_preserves.
  - destruct (body upstream) as [[reads |] |].
    + apply preserves_bind; [apply preserves_ret|]. intros reads'.
      apply preserves_bind; [now apply relay_loop_preserves|]. intros _.
      now apply wind_up_preserves.
    + apply preserves_bind; [apply preserves_throw|]. intros reads'.
      apply preserves_bind; [now apply relay_loop_preserves|]. intros _.
      now apply wind_up_preserves.
    + now apply wind_up_preserves.
Qed.

Lemma stream_catch_preserves (err : exn) :
  stable_sync E P -> preserves P (stream_catch E err).
Proof.
  intros Hs. unfold stream_catch.
  apply preserves_bind; [apply (stable_console _ _ Hs)|]. intros _.
  apply preserves_bind; [apply (stable_clearInterval _ _ Hs)|]. intros _.
  destruct (is_abort err);
    (apply preserves_bind; [now apply unless_closed_preserves|]; intros _;
     apply (stable_end _ _ Hs)).
Qed.

(** What holds when the streaming handler has registered its listener and
    armed its timer, and is kept by everything it can do from there, holds
    when it is done. *)
Lemma stream_invariant (process_env : string -> option string) (req_body : jsval) :
  stable E P ->
  JS.truthy (message_of req_body) = true ->
  configured (GEMINI_API_KEY process_env) = true ->
  P (set_requests (set_timeout_id opened Active)
                  [upstream_request process_env (message_of req_body)]) ->
  P (snd (gemini_stream process_env E D req_body fresh)).
Proof.
  intros Hs Hm Hk Hstart. pose proof Hs as [Hsync Hct Hdisp].
  rewrite (stream_fetched process_env E D req_body Hm Hk).
  assert (Hf : P (fetched process_env E (message_of req_body))).
  { unfold fetched. now apply run_callbacks_preserves. }
  destruct (fetch_settles E) as [upstream | e].
  - apply preserves_try_catch; [now apply relay_response_preserves | | exact Hf].
    intros e. now apply stream_catch_preserves.
  - now apply stream_catch_preserves.
Qed.

End Invariants.

(** Run one primitive or callback on an arbitrary world, by cases on what it
    tests. *)
Ltac by_primitive :=
  unfold preserves, dispatch, on_close, heartbeat_tick, try_catch, bind, res_write,
    console_line, clearInterval_heartbeat, res_end, clearTimeout_id, controller_abort,
    update, ret;
  intros;
  repeat (simpl;
          match goal with
          | |- context [match ?c with _ => _ end] =>
              lazymatch c with
              | context [match _ with _ => _ end] => fail
              | _ => destruct c eqn:?
              end
          end);
  simpl in *.

Ltac stable_by tac :=
  constructor; [constructor | ..]; by_primitive; tac.

(** ** The upstream call and the response head *)

Section Upstream.

Variable process_env : string -> option string.
Variable E : environment.
Variable D : TextDecoder.

Lemma stable_requests (rqs : list request) : stable E (fun w => requests w = rqs).
Proof. stable_by assumption. Qed.

Lemma stable_head :
  stable E (fun w => status_code w = 200 /\ json_sent w = None /\ headers w = headers opened).
Proof. stable_by assumption. Qed.

Lemma stable_abort_on_close : stable E (fun w => closed w = true -> aborted w = true).
Proof. stable_by ltac:(solve [auto | congruence]). Qed.

End Upstream.

(** ** The non-streaming handler on every environment *)

Section Chat.

Variable process_env : string -> option string.
Variable E : environment.

Lemma chat_idle_dispatch (rqs : list request) (c : callback) :
  preserves (fun w => chat_idle w /\ requests w = rqs) (dispatch E c).
Proof.
  by_primitive;
    match goal with
    | H : chat_idle _ /\ _ |- _ => destruct H as [[] ?]
    end;
    simpl in *; try (split; [constructor |]; simpl; assumption);
    try congruence.
  rewrite idle_listener0 in *. discriminate.
Qed.

(** A validated request: one [fetch], then an answer by [chat_answer]; the
    handler returns, and the event stream is not touched. *)
Lemma chat_outcome (req_body : jsval) :
  JS.truthy (message_of req_body) = true ->
  configured (GEMINI_API_KEY process_env) = true ->
  exists w',
    gemini_chat process_env E req_body fresh = (Return tt, w') /\
    chat_idle (set_ended (set_json_sent (set_status_code w' 200) None) false) /\
    requests w' = [upstream_request process_env (message_of req_body)] /\
    ended w' = true /\
    status_code w' = fst (chat_answer E) /\
    json_sent w' = Some (snd (chat_answer E)).
Proof.
  intros Hm Hk. enter_handler. rewrite Hm, Hk.
  unfold try_catch, chat_try, fetch, bind, new_AbortController, setTimeout_abort, update.
  cbv beta iota delta [negb].
  rewrite run_callbacks_returns.
  match goal with
  | |- context [run_callbacks E ?cs ?w] =>
      assert (Hf : chat_idle (snd (run_callbacks E cs w)) /\
                   requests (snd (run_callbacks E cs w)) =
                     [upstream_request process_env (message_of req_body)])
        by (apply (run_callbacks_preserves E _ cs (chat_idle_dispatch _));
            split; [constructor |]; reflexivity);
      remember (snd (run_callbacks E cs w)) as wf eqn:Heq; clear Heq
  end.
  destruct Hf as [Hidle Hreq]. unfold chat_answer.
  destruct (fetch_settles E) as [r | e]; unfold settle, ret, throw; cbv beta iota.
  - assert (Hc : chat_idle (snd (clearTimeout_id wf)) /\
                 requests (snd (clearTimeout_id wf)) =
                   [upstream_request process_env (message_of req_body)]).
    { unfold clearTimeout_id, update. simpl. destruct Hidle.
      destruct (timeout_id wf); (split; [constructor |]); assumption. }
    change (clearTimeout_id wf) with (Return tt, snd (clearTimeout_id wf)).
    remember (snd (clearTimeout_id wf)) as w0 eqn:Heq. clear Heq. cbv beta iota.
    destruct (ok r); cbv beta iota.
    + destruct Hc as [[] Hreq0]. eexists. split; [reflexivity|]. simpl.
      repeat split; assumption.
    + unfold text_or_null, bind. rewrite run_callbacks_returns.
      pose proof (run_callbacks_preserves E _ (text_callbacks E) (chat_idle_dispatch _) w0 Hc)
        as [[] Hreq1].
      eexists. split; [reflexivity|]. simpl. repeat split; assumption.
  - unfold chat_catch, bind, console_line, update. cbv beta iota.
    destruct Hidle.
    destruct (is_abort e); (eexists; split; [reflexivity|]); simpl; repeat split; assumption.
Qed.

End Chat.

Section Calls.

Variable process_env : string -> option string.
Variable E : environment.
Variable D : TextDecoder.

(** X1: a request that passes validation makes each handler call [fetch]
    exactly once, on every path and whatever the upstream does: a POST to
    the [generateText] URL of the configured model, with the credential as
    bearer token and the body
    [{ prompt: { text: message }, maxOutputTokens: 512 }]. *)
Theorem X1_one_upstream_call (req_body : jsval) (key : string) (message : json) :
  GEMINI_API_KEY process_env = Some key ->
  key <> EmptyString ->
  message_of req_body = Some message ->
  JS.truthy (Some message) = true ->
  requests (snd (gemini_stream process_env E D req_body fresh)) =
    [generateText (GEMINI_MODEL process_env) key message] /\
  requests (snd (gemini_chat process_env E req_body fresh)) =
    [generateText (GEMINI_MODEL process_env) key message].
Proof.
  intros Hkey Hne Hmsg Htruthy.
  assert (Hm : JS.truthy (message_of req_body) = true) by (rewrite Hmsg; exact Htruthy).
  assert (Hk : configured (GEMINI_API_KEY process_env) = true).
  { rewrite Hkey. destruct key; [contradiction | reflexivity]. }
  assert (Hrq : upstream_request process_env (message_of req_body) =
                generateText (GEMINI_MODEL process_env) key message).
  { unfold upstream_request, generateText, bearer. rewrite Hkey, Hmsg. reflexivity. }
  split.
  - rewrite <- Hrq.
    apply (stream_invariant E D _ process_env req_body (stable_requests E _) Hm Hk).
    reflexivity.
  - destruct (chat_outcome process_env E req_body Hm Hk) as (w' & Hrun & _ & Hreq & _).
    rewrite Hrun. simpl. rewrite Hreq, Hrq. reflexivity.
Qed.

(** X2: once the streaming handler has opened the event stream, every
    outcome is reported in band: on every path the status stays 200, no JSON
    body is sent with [res.json], and the response headers are the four set
    at the start. *)
Theorem X2_stream_failures_in_band (req_body : jsval) :
  JS.truthy (message_of req_body) = true ->
  configured (GEMINI_API_KEY process_env) = true ->
  status_code (snd (gemini_stream process_env E D req_body fresh)) = 200 /\
  json_sent (snd (gemini_stream process_env E D req_body fresh)) = None /\
  headers (snd (gemini_stream process_env E D req_body fresh)) =
    [("Content-Type", "text/event-stream"); ("Cache-Control", "no-cache");
     ("Connection", "keep-alive"); ("Access-Control-Allow-Origin", "*")].
Proof.
  intros Hm Hk.
  apply (stream_invariant E D _ process_env req_body (stable_head E) Hm Hk).
  repeat split.
Qed.

(** X3: the non-streaming handler does not throw.  For every request body,
    whatever the upstream call settles to and whatever callbacks run
    meanwhile, it returns having ended the response with a JSON body and one
    of the statuses 200, 400, 500, 502, 504: every rejection is caught.  It
    never writes to the response stream and starts no heartbeat. *)
Theorem X3_chat_never_throws (req_body : jsval) :
  fst (gemini_chat process_env E req_body fresh) = Return tt /\
  ended (snd (gemini_chat process_env E req_body fresh)) = true /\
  (exists obj, json_sent (snd (gemini_chat process_env E req_body fresh)) = Some obj) /\
  In (status_code (snd (gemini_chat process_env E req_body fresh))) chat_statuses /\
  write_attempts (snd (gemini_chat process_env E req_body fresh)) = 0 /\
  heartbeat (snd (gemini_chat process_env E req_body fresh)) = Unset.
Proof.
  destruct (JS.truthy (message_of req_body)) eqn:Hm.
  - destruct (configured (GEMINI_API_KEY process_env)) eqn:Hk.
    + destruct (chat_outcome process_env E req_body Hm Hk)
        as (w' & Hrun & [] & _ & Hend & Hst & Hjs).
      rewrite Hrun. simpl in *.
      repeat split; try assumption; [eexists; exact Hjs|].
      rewrite Hst. unfold chat_answer, chat_statuses.
      destruct (fetch_settles E) as [r | e]; [destruct (ok r) | destruct (is_abort e)];
        simpl; auto 10.
    + enter_handler. rewrite Hm, Hk. simpl. unfold chat_statuses.
      repeat split; simpl; eauto 10.
  - enter_handler. rewrite Hm. simpl. unfold chat_statuses.
    repeat split; simpl; eauto 10.
Qed.

(** X4: the non-streaming handler maps upstream failures to statuses: a
    response with a non-success status gives 502 with
    [{ error: 'Upstream AI API error' }], whether or not its text can be
    read; a [fetch] that rejects with anything but an [AbortError] gives 500
    with [{ error: 'Internal server error' }]. *)
Theorem X4_chat_error_statuses (req_body : jsval) :
  JS.truthy (message_of req_body) = true ->
  configured (GEMINI_API_KEY process_env) = true ->
  (forall r, fetch_settles E = Resolved r -> ok r = false ->
             status_code (snd (gemini_chat process_env E req_body fresh)) = 502 /\
             json_sent (snd (gemini_chat process_env E req_body fresh)) =
               Some (error_body "Upstream AI API error")) /\
  (forall e, fetch_settles E = Rejected e -> is_abort e = false ->
             status_code (snd (gemini_chat process_env E req_body fresh)) = 500 /\
             json_sent (snd (gemini_chat process_env E req_body fresh)) =
               Some (error_body "Internal server error")).
Proof.
  intros Hm Hk.
  destruct (chat_outcome process_env E req_body Hm Hk) as (w' & Hrun & _ & _ & _ & Hst & Hjs).
  rewrite Hrun. simpl. rewrite Hst, Hjs. unfold chat_answer.
  split.
  - intros r Hs Hok. rewrite Hs, Hok. auto.
  - intros e Hs Ha. rewrite Hs, Ha. auto.
Qed.

End Calls.

Lemma X1_witness :
  requests (snd (gemini_stream with_key he_llo ascii_decoder hi fresh)) =
    [generateText "gemini-1.5-pro" "secret" (JStr "hi")] /\
  requests (snd (gemini_chat with_key network_down hi fresh)) =
    [generateText "gemini-1.5-pro" "secret" (JStr "hi")].
Proof.
  split.
  - apply (X1_one_upstream_call with_key he_llo ascii_decoder hi "secret" (JStr "hi"));
      try reflexivity; discriminate.
  - apply (X1_one_upstream_call with_key network_down ascii_decoder hi "secret" (JStr "hi"));
      try reflexivity; discriminate.
Defined.

Lemma X2_witness :
  status_code (snd (gemini_stream with_key rate_limited ascii_decoder hi fresh)) = 200 /\
  json_sent (snd (gemini_stream with_key rate_limited ascii_decoder hi fresh)) = None.
Proof.
  destruct (X2_stream_failures_in_band with_key rate_limited ascii_decoder hi eq_refl eq_refl)
    as (Hs & Hj & _).
  split; assumption.
Defined.

Lemma X4_witness :
  status_code (snd (gemini_chat with_key rate_limited hi fresh)) = 502 /\
  status_code (snd (gemini_chat with_key network_down hi fresh)) = 500.
Proof.
  split.
  - apply (proj1 (X4_chat_error_statuses with_key rate_limited hi eq_refl eq_refl)
             (mkResponse false 429 (Some "rate limited") None None));
      reflexivity.
  - apply (proj2 (X4_chat_error_statuses with_key network_down hi eq_refl eq_refl)
             (mkExn "FetchError" "ECONNREFUSED"));
      reflexivity.
Defined.

(** ** What aborts the upstream call, and what becomes of the timer *)

Lemma callback_eq_dec (a b : callback) : {a = b} + {a <> b}.
Proof. decide equality. Defined.

Section Causes.

Variable process_env : string -> option string.
Variable E : environment.
Variable D : TextDecoder.

Lemma run_callbacks_preserves_in (P : world -> Prop) (cs : list callback) :
  (forall c, In c cs -> preserves P (dispatch E c)) -> preserves P (run_callbacks E cs).
Proof.
  induction cs as [| c cs IH]; intros Hd; [apply preserves_ret|].
  simpl. apply preserves_bind.
  - apply Hd. now left.
  - intros _. apply IH. intros c' Hin. apply Hd. now right.
Qed.

(** A timer that fires is marked so, whatever else happens meanwhile. *)
Lemma run_callbacks_fires (cs : list callback) (w : world) :
  In TimeoutFires cs ->
  timeout_id w = Active \/ timeout_id w = Fired ->
  timeout_id (snd (run_callbacks E cs w)) = Fired.
Proof.
  revert w. induction cs as [| c cs IH]; intros w Hin Ht; [contradiction|].
  simpl. unfold bind.
  destruct (dispatch_evolves E c w) as (w1 & H1 & _). rewrite H1.
  assert (Hkeep : timeout_id (snd (dispatch E c w)) = Fired \/
                  (c <> TimeoutFires /\ timeout_id (snd (dispatch E c w)) = timeout_id w)).
  { clear -Ht. by_primitive;
      try (right; split; [discriminate | reflexivity]); try (left; reflexivity);
      destruct Ht; try congruence; now left. }
  rewrite H1 in Hkeep. simpl in Hkeep.
  destruct Hkeep as [Hf | [Hc Hsame]].
  - assert (Hstay : preserves (fun w => timeout_id w = Fired) (run_callbacks E cs)).
    { apply run_callbacks_preserves. intros c'. by_primitive; congruence. }
    apply Hstay. exact Hf.
  - destruct Hin as [-> | Hin]; [contradiction|].
    apply IH; [assumption | rewrite Hsame; assumption].
Qed.

(** After [clearTimeout(id)] the timer is not active, and a second call
    changes nothing. *)
Lemma relay_response_cleared (upstream : response) (w : world) :
  relay_response E D upstream w = relay_response E D upstream (snd (clearTimeout_id w)).
Proof.
  unfold relay_response, bind, clearTimeout_id, update. simpl.
  destruct (timeout_id w) eqn:Ht; simpl; rewrite ?Ht; reflexivity.
Qed.

(** An invariant in two phases: [P] from the settlement of [fetch], [Q]
    from [clearTimeout(id)] on. *)
Lemma stream_invariant_phases (P Q : world -> Prop) (req_body : jsval) :
  stable_sync E P ->
  stable E Q ->
  (forall w, P w -> Q (snd (clearTimeout_id w))) ->
  JS.truthy (message_of req_body) = true ->
  configured (GEMINI_API_KEY process_env) = true ->
  P (fetched process_env E (message_of req_body)) ->
  match fetch_settles E with
  | Resolved _ => Q (snd (gemini_stream process_env E D req_body fresh))
  | Rejected _ => P (snd (gemini_stream process_env E D req_body fresh))
  end.
Proof.
  intros HP HQ Hclear Hm Hk Hf.
  rewrite (stream_fetched process_env E D req_body Hm Hk).
  destruct (fetch_settles E) as [upstream | e].
  - unfold try_catch. rewrite relay_response_cleared.
    pose proof (relay_response_preserves E D Q upstream HQ _ (Hclear _ Hf)) as Hr.
    destruct (relay_response E D upstream
                (snd (clearTimeout_id (fetched process_env E (message_of req_body)))))
      as [[[] | e |] w1]; simpl in *; try assumption.
    apply stream_catch_preserves; [apply (stable_in_catch _ _ HQ) | assumption].
  - now apply stream_catch_preserves.
Qed.

Lemma stable_aborted : stable E (fun w => aborted w = true).
Proof. stable_by ltac:(solve [auto | congruence]). Qed.

Lemma stable_timer_at (t : timer) : t <> Active -> stable E (fun w => timeout_id w = t).
Proof. intros Ht. stable_by ltac:(solve [auto | congruence]). Qed.

Lemma stable_sync_timer_at (t : timer) : stable_sync E (fun w => timeout_id w = t).
Proof. constructor; by_primitive; assumption. Qed.

Lemma fetched_timer (message : jsval) :
  (In TimeoutFires (fetch_callbacks E) ->
   timeout_id (fetched process_env E message) = Fired /\
   aborted (fetched process_env E message) = true) /\
  (~ In TimeoutFires (fetch_callbacks E) ->
   timeout_id (fetched process_env E message) = Active /\
   (aborted (fetched process_env E message) = true ->
    closed (fetched process_env E message) = true)).
Proof.
  unfold fetched. split.
  - intros Hin. split.
    + apply run_callbacks_fires; [assumption | now left].
    + apply run_callbacks_timeout; [assumption | now left].
  - intros Hn.
    apply (run_callbacks_preserves_in
             (fun w => timeout_id w = Active /\ (aborted w = true -> closed w = true))).
    + intros c Hin. assert (Hc : c <> TimeoutFires) by (intros ->; contradiction).
      clear -Hc. by_primitive;
        try contradiction;
        match goal with H : _ /\ _ |- _ => destruct H as [Ht Hac] end;
        split; solve [auto | congruence].
    + split; [reflexivity | discriminate].
Qed.

(** X5: in the streaming handler the upstream call is aborted exactly when
    the client disconnected or the timer fired while [fetch] was pending:
    every disconnect aborts it, and once the response headers are in, the
    timer cannot abort the reading of the body any more. *)
Theorem X5_stream_abort_causes (req_body : jsval) :
  JS.truthy (message_of req_body) = true ->
  configured (GEMINI_API_KEY process_env) = true ->
  (aborted (snd (gemini_stream process_env E D req_body fresh)) = true <->
   closed (snd (gemini_stream process_env E D req_body fresh)) = true \/
   In TimeoutFires (fetch_callbacks E)).
Proof.
  intros Hm Hk.
  destruct (fetched_timer (message_of req_body)) as [Hfired Hquiet].
  split.
  - intros Hab.
    destruct (in_dec callback_eq_dec TimeoutFires (fetch_callbacks E)) as [Hin | Hn];
      [now right | left].
    destruct (Hquiet Hn) as [Ht Hac].
    pose proof (stream_invariant_phases
                  (fun w => aborted w = true -> closed w = true)
                  (fun w => timeout_id w <> Active /\ (aborted w = true -> closed w = true))
                  req_body) as Hinv.
    assert (Hfinal : aborted (snd (gemini_stream process_env E D req_body fresh)) = true ->
                     closed (snd (gemini_stream process_env E D req_body fresh)) = true).
    { destruct (fetch_settles E); [apply Hinv | apply Hinv]; try assumption.
      all: try (constructor; by_primitive; solve [auto | congruence]).
      all: try (stable_by ltac:(solve [intuition congruence])).
      all: intros w Hw; unfold clearTimeout_id, update; simpl;
        destruct (timeout_id w) eqn:Htw; simpl; split; solve [auto | congruence]. }
    auto.
  - intros [Hc | Hin].
    + revert Hc.
      apply (stream_invariant E D _ process_env req_body (stable_abort_on_close E) Hm Hk).
      discriminate.
    + pose proof (stream_invariant_phases
                    (fun w => aborted w = true) (fun w => aborted w = true) req_body
                    (stable_in_catch _ _ stable_aborted) stable_aborted) as Hinv.
      destruct (fetch_settles E); apply Hinv; try assumption;
        try apply (proj2 (Hfired Hin));
        apply (stable_clearTimeout _ _ stable_aborted).
Qed.

(** X6: [clearTimeout(id)] is reached only when [fetch] resolves.  When
    the streaming handler is done, the timer has fired if it fired while
    [fetch] was pending; otherwise it is cleared if [fetch] resolved, and
    still armed if [fetch] rejected. *)
Theorem X6_stream_timer_cleared_on_resolve_only (req_body : jsval) :
  JS.truthy (message_of req_body) = true ->
  configured (GEMINI_API_KEY process_env) = true ->
  (In TimeoutFires (fetch_callbacks E) ->
   timeout_id (snd (gemini_stream process_env E D req_body fresh)) = Fired) /\
  (~ In TimeoutFires (fetch_callbacks E) ->
   timeout_id (snd (gemini_stream process_env E D req_body fresh)) =
     match fetch_settles E with
     | Resolved _ => Cleared
     | Rejected _ => Active
     end).
Proof.
  intros Hm Hk.
  destruct (fetched_timer (message_of req_body)) as [Hfired Hquiet].
  split.
  - intros Hin.
    pose proof (stream_invariant_phases
                  (fun w => timeout_id w = Fired) (fun w => timeout_id w = Fired) req_body
                  (stable_sync_timer_at Fired)
                  (stable_timer_at Fired ltac:(discriminate))) as Hinv.
    destruct (fetch_settles E); apply Hinv; try assumption;
      try apply (proj1 (Hfired Hin));
      apply (stable_clearTimeout _ _ (stable_timer_at Fired ltac:(discriminate))).
  - intros Hn.
    pose proof (stream_invariant_phases
                  (fun w => timeout_id w = Active) (fun w => timeout_id w = Cleared) req_body
                  (stable_sync_timer_at Active)
                  (stable_timer_at Cleared ltac:(discriminate))) as Hinv.
    destruct (fetch_settles E); apply Hinv; try assumption;
      try apply (proj1 (Hquiet Hn));
      intros w Hw; unfold clearTimeout_id, update; simpl; rewrite Hw; reflexivity.
Qed.

End Causes.

Lemma X5_witness :
  aborted (snd (gemini_stream with_key client_leaves_midway ascii_decoder hi fresh)) = true /\
  aborted (snd (gemini_stream with_key upstream_too_slow ascii_decoder hi fresh)) = true.
Proof.
  split.
  - apply (X5_stream_abort_causes with_key client_leaves_midway ascii_decoder hi
             eq_refl eq_refl).
    left. reflexivity.
  - apply (X5_stream_abort_causes with_key upstream_too_slow ascii_decoder hi
             eq_refl eq_refl).
    right. simpl. auto.
Defined.

Lemma X6_witness :
  timeout_id (snd (gemini_stream with_key upstream_too_slow ascii_decoder hi fresh)) = Fired /\
  timeout_id (snd (gemini_stream with_key network_down ascii_decoder hi fresh)) = Active /\
  timeout_id (snd (gemini_stream with_key he_llo ascii_decoder hi fresh)) = Cleared.
Proof.
  split; [| split].
  - apply (X6_stream_timer_cleared_on_resolve_only with_key upstream_too_slow ascii_decoder hi
             eq_refl eq_refl).
    simpl. auto.
  - apply (proj2 (X6_stream_timer_cleared_on_resolve_only with_key network_down ascii_decoder
                    hi eq_refl eq_refl)).
    simpl. tauto.
  - apply (proj2 (X6_stream_timer_cleared_on_resolve_only with_key he_llo ascii_decoder
                    hi eq_refl eq_refl)).
    simpl. intuition discriminate.
Defined.

Section ChatCauses.

Variable process_env : string -> option string.
Variable E : environment.

Lemma chat_waiting_dispatch (b : bool) (c : callback) :
  preserves (fun w => close_listener w = false /\ timeout_id w <> Active /\ aborted w = b)
            (dispatch E c).
Proof.
  by_primitive;
    match goal with H : _ /\ _ /\ _ |- _ => destruct H as (Hl & Ht & Hb) end;
    try (repeat split; solve [auto | congruence]);
    try congruence.
  rewrite Hl in *. discriminate.
Qed.

Lemma chat_aborted_final (req_body : jsval) :
  JS.truthy (message_of req_body) = true ->
  configured (GEMINI_API_KEY process_env) = true ->
  aborted (snd (gemini_chat process_env E req_body fresh)) =
  aborted (chat_fetched process_env E (message_of req_body)).
Proof.
  intros Hm Hk. enter_handler. rewrite Hm, Hk.
  unfold try_catch, chat_try, fetch, bind, new_AbortController, setTimeout_abort, update.
  cbv beta iota delta [negb].
  rewrite run_callbacks_returns.
  change (requests (set_timeout_id (set_aborted fresh false) Active) ++
          [upstream_request process_env (message_of req_body)])
    with [upstream_request process_env (message_of req_body)].
  fold (chat_fetched process_env E (message_of req_body)).
  assert (Hl : close_listener (chat_fetched process_env E (message_of req_body)) = false).
  { unfold chat_fetched.
    apply (run_callbacks_preserves E (fun w => close_listener w = false)).
    - intros c. by_primitive; assumption.
    - reflexivity. }
  remember (chat_fetched process_env E (message_of req_body)) as wf eqn:Heq. clear Heq.
  destruct (fetch_settles E) as [r | e]; unfold settle, ret, throw; cbv beta iota.
  - assert (Hc : close_listener (snd (clearTimeout_id wf)) = false /\
                 timeout_id (snd (clearTimeout_id wf)) <> Active /\
                 aborted (snd (clearTimeout_id wf)) = aborted wf).
    { unfold clearTimeout_id, update. simpl.
      destruct (timeout_id wf) eqn:Ht; simpl; repeat split; congruence. }
    change (clearTimeout_id wf) with (Return tt, snd (clearTimeout_id wf)).
    remember (snd (clearTimeout_id wf)) as w0 eqn:Heq. clear Heq. cbv beta iota.
    destruct (ok r); cbv beta iota.
    + simpl. apply Hc.
    + unfold text_or_null, bind. rewrite run_callbacks_returns.
      pose proof (run_callbacks_preserves E _ (text_callbacks E)
                    (chat_waiting_dispatch (aborted wf)) w0 Hc) as (_ & _ & Hb).
      simpl. exact Hb.
  - unfold chat_catch, bind, console_line, update. cbv beta iota.
    destruct (is_abort e); reflexivity.
Qed.

(** X7: in the non-streaming handler only the timer aborts the upstream
    call: the controller ends up aborted exactly when the timer fired while
    [fetch] was pending.  A 'close' event of the request aborts nothing,
    since no listener is registered. *)
Theorem X7_chat_aborted_by_timer_only (req_body : jsval) :
  JS.truthy (message_of req_body) = true ->
  configured (GEMINI_API_KEY process_env) = true ->
  (aborted (snd (gemini_chat process_env E req_body fresh)) = true <->
   In TimeoutFires (fetch_callbacks E)).
Proof.
  intros Hm Hk. rewrite (chat_aborted_final req_body Hm Hk). unfold chat_fetched.
  split.
  - intros Hab.
    destruct (in_dec callback_eq_dec TimeoutFires (fetch_callbacks E)) as [Hin | Hn];
      [assumption | exfalso].
    assert (Hinv : close_listener
                     (snd (run_callbacks E (fetch_callbacks E)
                             (set_requests (set_timeout_id (set_aborted fresh false) Active)
                                [upstream_request process_env (message_of req_body)]))) = false /\
                   aborted
                     (snd (run_callbacks E (fetch_callbacks E)
                             (set_requests (set_timeout_id (set_aborted fresh false) Active)
                                [upstream_request process_env (message_of req_body)]))) = false).
    { apply (run_callbacks_preserves_in E
               (fun w => close_listener w = false /\ aborted w = false)).
      - intros c Hin. assert (Hc : c <> TimeoutFires) by (intros ->; contradiction).
        clear -Hc. by_primitive; try contradiction;
          match goal with H : _ /\ _ |- _ => destruct H as [Hl Hb] end;
          try (split; assumption).
        rewrite Hl in *. discriminate.
      - split; reflexivity. }
    destruct Hinv as [_ Hb]. congruence.
  - intros Hin. apply run_callbacks_timeout; [assumption | now left].
Qed.

End ChatCauses.

Lemma X7_witness :
  aborted (snd (gemini_chat with_key upstream_too_slow hi fresh)) = true.
Proof.
  apply (X7_chat_aborted_by_timer_only with_key upstream_too_slow hi eq_refl eq_refl).
  simpl. auto.
Defined.

(** ** The error paths of the streaming handler *)

Section ErrorPaths.

Variable process_env : string -> option string.
Variable E : environment.
Variable D : TextDecoder.

(** What the [catch] block leaves, by [closed] and by the write. *)
Lemma stream_catch_sends (err : exn) (w : world) :
  (closed w = true ->
   fst (stream_catch E err w) = Return tt /\
   written (snd (stream_catch E err w)) = written w /\
   ended (snd (stream_catch E err w)) = true) /\
  (closed w = false -> write_ok E (write_attempts w) = true ->
   fst (stream_catch E err w) = Return tt /\
   written (snd (stream_catch E err w)) = written w ++ [catch_event err] /\
   ended (snd (stream_catch E err w)) = true) /\
  closed (snd (stream_catch E err w)) = closed w /\
  In (Error, "Error in stream proxy") (console (snd (stream_catch E err w))).
Proof.
  unfold stream_catch, catch_event, unless_closed, bind, read, when, res_write, console_line,
    clearInterval_heartbeat, res_end, update.
  destruct (is_abort err); simpl;
    destruct (closed w) eqn:Hc; simpl;
    try destruct (write_ok E (write_attempts w)) eqn:Hw; simpl; rewrite ?Hc;
    (repeat split; try discriminate; try reflexivity; try (intros; reflexivity);
     try (apply in_or_app; right; left; reflexivity)).
Qed.

(** [if(!closed) res.write(e); clearInterval(heartbeat); return res.end()]
    with the client connected and the write returning. *)
Lemma wind_up_sends (e : sse) (w : world) :
  (closed w = true ->
   (unless_closed E e ;; clearInterval_heartbeat ;; res_end) w =
   (Return tt,
    set_ended (set_clearInterval_calls (set_heartbeat w Cleared)
                                       (S (clearInterval_calls w))) true)) /\
  (closed w = false -> write_ok E (write_attempts w) = true ->
   (unless_closed E e ;; clearInterval_heartbeat ;; res_end) w =
   (Return tt,
    set_ended
      (set_clearInterval_calls
         (set_heartbeat
            (set_written (set_write_attempts w (S (write_attempts w))) (written w ++ [e]))
            Cleared)
         (S (clearInterval_calls w))) true)).
Proof.
  unfold unless_closed, bind, read, when, res_write, clearInterval_heartbeat, res_end, update.
  split; [intros Hc | intros Hc Hw]; rewrite Hc; simpl; rewrite ?Hw; reflexivity.
Qed.

(** X8: when the upstream answers with a non-success status, the streaming
    handler logs the failure and, with the client still connected and the
    write returning, sends exactly one data event,
    [{ error: 'Upstream error' }], no chunk event and no [[DONE]], then ends
    the response; with the client gone it sends no data event.  Whether the
    error text could be read makes no difference. *)
Theorem X8_stream_upstream_error (req_body : jsval) (upstream : response) :
  JS.truthy (message_of req_body) = true ->
  configured (GEMINI_API_KEY process_env) = true ->
  fetch_settles E = Resolved upstream ->
  ok upstream = false ->
  In (Error, "Gemini stream failed")
     (console (snd (gemini_stream process_env E D req_body fresh))) /\
  (closed (snd (gemini_stream process_env E D req_body fresh)) = true ->
   fst (gemini_stream process_env E D req_body fresh) = Return tt /\
   data_events (snd (gemini_stream process_env E D req_body fresh)) = [] /\
   ended (snd (gemini_stream process_env E D req_body fresh)) = true) /\
  (closed (snd (gemini_stream process_env E D req_body fresh)) = false ->
   (forall n, write_ok E n = true) ->
   fst (gemini_stream process_env E D req_body fresh) = Return tt /\
   data_events (snd (gemini_stream process_env E D req_body fresh)) =
     [DataError "Upstream error"] /\
   ended (snd (gemini_stream process_env E D req_body fresh)) = true).
Proof.
  intros Hm Hk Hs Hok.
  rewrite (stream_fetched process_env E D req_body Hm Hk), Hs.
  destruct (fetched_in_flight process_env E (message_of req_body)) as [_ Hd].
  remember (fetched process_env E (message_of req_body)) as wf eqn:Heq. clear Heq.
  destruct (clearTimeout_id_after wf) as (Hrun0 & _ & _ & Hd0).
  assert (Hrun : exists res w',
             try_catch (relay_response E D upstream) (stream_catch E) wf = (res, w') /\
             In (Error, "Gemini stream failed") (console w') /\
             (closed w' = true ->
              res = Return tt /\ data_events w' = [] /\ ended w' = true) /\
             (closed w' = false -> (forall n, write_ok E n = true) ->
              res = Return tt /\ data_events w' = [DataError "Upstream error"] /\
              ended w' = true)).
  { unfold try_catch, relay_response, bind at 1. rewrite Hrun0, Hok.
    remember (snd (clearTimeout_id wf)) as w0 eqn:Heq. clear Heq Hrun0.
    cbv beta iota delta [negb]. unfold bind at 1, text_or_null, bind at 1.
    rewrite run_callbacks_returns.
    destruct (run_callbacks_after E (text_callbacks E) w0) as [_ Hdt].
    remember (snd (run_callbacks E (text_callbacks E) w0)) as wt eqn:Heq. clear Heq.
    unfold ret, bind at 1, console_line at 1, update at 1. cbv beta iota.
    match goal with
    | |- context [(unless_closed E ?e ;; clearInterval_heartbeat ;; res_end) ?w] =>
        destruct (wind_up_sends e w) as [Hclosed Hopen];
        assert (Hlog : In (Error, "Gemini stream failed") (console w))
          by (simpl; apply in_or_app; right; left; reflexivity)
    end.
    simpl in Hclosed, Hopen.
    unfold data_events in *.
    destruct (closed wt) eqn:Hc.
    - rewrite (Hclosed eq_refl). eexists _, _. split; [reflexivity|]. simpl. rewrite Hc.
      split; [exact Hlog|]. split; [intros _ | discriminate].
      repeat split. congruence.
    - destruct (write_ok E (write_attempts wt)) eqn:Hw.
      + rewrite (Hopen eq_refl eq_refl). eexists _, _. split; [reflexivity|]. simpl.
        rewrite Hc. split; [exact Hlog|]. split; [discriminate | intros _ _].
        repeat split. rewrite filter_app. simpl. rewrite Hdt, Hd0, Hd. reflexivity.
      + unfold unless_closed, bind, read, when, res_write. simpl. rewrite Hc. simpl.
        rewrite Hw. simpl.
        match goal with
        | |- context [stream_catch E ?err ?ww] =>
            destruct (stream_catch_sends err ww) as (_ & _ & Hcl & _);
            pose proof (stream_catch_preserves
                          E (fun x => In (Error, "Gemini stream failed") (console x)) err
                          ltac:(constructor; by_primitive;
                                solve [assumption | apply in_or_app; now left])
                          ww Hlog) as Hlog';
            destruct (stream_catch E err ww) as [res w']
        end.
        simpl in *. exists res, w'. split; [reflexivity|]. split; [exact Hlog'|].
        rewrite Hcl, Hc. split; [discriminate|].
        intros _ Hall. rewrite Hall in Hw. discriminate. }
  destruct Hrun as (res & w' & Hrun & Hfacts). rewrite Hrun. simpl. exact Hfacts.
Qed.

(** X9: when the upstream answers with a success status but no body, the
    streaming handler sends, with the client still connected and the write
    returning, exactly one data event,
    [{ error: 'No stream from upstream' }], and ends the response; with the
    client gone it sends no data event. *)
Theorem X9_stream_no_body (req_body : jsval) (upstream : response) :
  JS.truthy (message_of req_body) = true ->
  configured (GEMINI_API_KEY process_env) = true ->
  fetch_settles E = Resolved upstream ->
  ok upstream = true ->
  body upstream = None ->
  (closed (snd (gemini_stream process_env E D req_body fresh)) = true ->
   fst (gemini_stream process_env E D req_body fresh) = Return tt /\
   data_events (snd (gemini_stream process_env E D req_body fresh)) = [] /\
   ended (snd (gemini_stream process_env E D req_body fresh)) = true) /\
  (closed (snd (gemini_stream process_env E D req_body fresh)) = false ->
   (forall n, write_ok E n = true) ->
   fst (gemini_stream process_env E D req_body fresh) = Return tt /\
   data_events (snd (gemini_stream process_env E D req_body fresh)) =
     [DataError "No stream from upstream"] /\
   ended (snd (gemini_stream process_env E D req_body fresh)) = true).
Proof.
  intros Hm Hk Hs Hok Hbody.
  rewrite (stream_fetched process_env E D req_body Hm Hk), Hs.
  destruct (fetched_in_flight process_env E (message_of req_body)) as [_ Hd].
  remember (fetched process_env E (message_of req_body)) as wf eqn:Heq. clear Heq.
  destruct (clearTimeout_id_after wf) as (Hrun0 & _ & _ & Hd0).
  assert (Hrun : exists res w',
             try_catch (relay_response E D upstream) (stream_catch E) wf = (res, w') /\
             (closed w' = true ->
              res = Return tt /\ data_events w' = [] /\ ended w' = true) /\
             (closed w' = false -> (forall n, write_ok E n = true) ->
              res = Return tt /\ data_events w' = [DataError "No stream from upstream"] /\
              ended w' = true)).
  { unfold try_catch, relay_response, bind at 1. rewrite Hrun0, Hok, Hbody.
    remember (snd (clearTimeout_id wf)) as w0 eqn:Heq. clear Heq Hrun0.
    cbv beta iota delta [negb].
    match goal with
    | |- context [(unless_closed E ?e ;; clearInterval_heartbeat ;; res_end) ?ww] =>
        destruct (wind_up_sends e ww) as [Hclosed Hopen]
    end.
    unfold data_events in *.
    destruct (closed w0) eqn:Hc.
    - rewrite (Hclosed eq_refl). eexists _, _. split; [reflexivity|]. simpl. rewrite Hc.
      split; [intros _ | discriminate]. repeat split. congruence.
    - destruct (write_ok E (write_attempts w0)) eqn:Hw.
      + rewrite (Hopen eq_refl eq_refl). eexists _, _. split; [reflexivity|]. simpl.
        rewrite Hc. split; [discriminate | intros _ _].
        repeat split. rewrite filter_app. simpl. rewrite Hd0, Hd. reflexivity.
      + unfold unless_closed, bind, read, when, res_write. simpl. rewrite Hc. simpl.
        rewrite Hw. simpl.
        match goal with
        | |- context [stream_catch E ?err ?ww] =>
            destruct (stream_catch_sends err ww) as (_ & _ & Hcl & _);
            destruct (stream_catch E err ww) as [res w']
        end.
        simpl in *. exists res, w'. split; [reflexivity|].
        rewrite Hcl, Hc. split; [discriminate|].
        intros _ Hall. rewrite Hall in Hw. discriminate. }
  destruct Hrun as (res & w' & Hrun & Hfacts). rewrite Hrun. simpl. exact Hfacts.
Qed.

(** X10: when [fetch] rejects with anything but an [AbortError], the
    streaming handler logs the error and, with the client still connected
    and the write returning, sends exactly one data event,
    [{ error: 'Internal server error' }], and ends the response; with the
    client gone it sends no data event. *)
Theorem X10_stream_internal_error (req_body : jsval) (err : exn) :
  JS.truthy (message_of req_body) = true ->
  configured (GEMINI_API_KEY process_env) = true ->
  fetch_settles E = Rejected err ->
  is_abort err = false ->
  In (Error, "Error in stream proxy")
     (console (snd (gemini_stream process_env E D req_body fresh))) /\
  (closed (snd (gemini_stream process_env E D req_body fresh)) = true ->
   fst (gemini_stream process_env E D req_body fresh) = Return tt /\
   data_events (snd (gemini_stream process_env E D req_body fresh)) = [] /\
   ended (snd (gemini_stream process_env E D req_body fresh)) = true) /\
  (closed (snd (gemini_stream process_env E D req_body fresh)) = false ->
   (forall n, write_ok E n = true) ->
   fst (gemini_stream process_env E D req_body fresh) = Return tt /\
   data_events (snd (gemini_stream process_env E D req_body fresh)) =
     [DataError "Internal server error"] /\
   ended (snd (gemini_stream process_env E D req_body fresh)) = true).
Proof.
  intros Hm Hk Hs Ha.
  rewrite (stream_fetched process_env E D req_body Hm Hk), Hs.
  destruct (fetched_in_flight process_env E (message_of req_body)) as [_ Hd].
  remember (fetched process_env E (message_of req_body)) as wf eqn:Heq. clear Heq.
  destruct (stream_catch_sends err wf) as (Hclosed & Hopen & Hcl & Hlog).
  unfold catch_event in Hopen. rewrite Ha in Hopen.
  split; [exact Hlog|]. rewrite Hcl. unfold data_events in *.
  split.
  - intros Hc. destruct (Hclosed Hc) as (Hr & Hw & He). rewrite Hw. auto.
  - intros Hc Hall. destruct (Hopen Hc (Hall _)) as (Hr & Hw & He).
    rewrite Hw, filter_app, Hd. auto.
Qed.

(** X11: when a read of the upstream body fails after the chunks [values]
    were relayed, with the client still connected and every write returning,
    the data events sent are those chunks followed by exactly one error
    event ([AI request timed out] for an [AbortError], [Internal server
    error] otherwise) and no [[DONE]]; later reads are not made and the
    response is ended. *)
Theorem X11_stream_read_failure
        (req_body : jsval) (upstream : response) (pre : list read_step) (mid : read_step)
        (post : list read_step) (values : list (list Byte.byte)) (err : exn) :
  JS.truthy (message_of req_body) = true ->
  configured (GEMINI_API_KEY process_env) = true ->
  fetch_settles E = Resolved upstream ->
  ok upstream = true ->
  body upstream = Some (ReadableStream (pre ++ mid :: post)) ->
  map read_settles pre = map (fun v => Resolved (Chunk v)) values ->
  read_settles mid = Rejected err ->
  ~ In ReqClose (fetch_callbacks E) ->
  Forall (fun s => ~ In ReqClose (read_callbacks s)) (pre ++ [mid]) ->
  (forall n, write_ok E n = true) ->
  fst (gemini_stream process_env E D req_body fresh) = Return tt /\
  data_events (snd (gemini_stream process_env E D req_body fresh)) =
    map DataChunk (decoded D (decoder_fresh D) values) ++ [catch_event err] /\
  ended (snd (gemini_stream process_env E D req_body fresh)) = true.
Proof.
  intros Hm Hk Hs Hok Hbody Hpre Hmid Hfetch_quiet Hquiet Hwrites.
  rewrite (stream_fetched process_env E D req_body Hm Hk), Hs.
  destruct (fetched_in_flight process_env E (message_of req_body)) as [_ Hd].
  assert (Hc : closed (fetched process_env E (message_of req_body)) = false).
  { unfold fetched. rewrite run_callbacks_no_close by assumption. reflexivity. }
  remember (fetched process_env E (message_of req_body)) as wf eqn:Heq. clear Heq.
  destruct (clearTimeout_id_after wf) as (Hrun0 & _ & Hc0 & Hd0).
  remember (snd (clearTimeout_id wf)) as w0 eqn:Heq. clear Heq.
  apply Forall_app in Hquiet. destruct Hquiet as [Hpre_quiet Hmid_quiet].
  inversion Hmid_quiet as [| ? ? Hmid_q _]; subst.
  destruct (relay_loop_prefix E D pre (mid :: post) values (decoder_fresh D) w0
              Hpre Hpre_quiet Hwrites)
    as (w1 & Hloop & _ & Hc1 & Hd1); [congruence|].
  pose proof (run_callbacks_no_close E (read_callbacks mid) w1 Hmid_q) as Hc2.
  destruct (run_callbacks_after E (read_callbacks mid) w1) as [_ Hd2].
  assert (Hrun : try_catch (relay_response E D upstream) (stream_catch E) wf =
                 stream_catch E err (snd (run_callbacks E (read_callbacks mid) w1))).
  { unfold try_catch. rewrite (relay_response_readable E D upstream _ wf Hok Hbody).
    unfold bind. rewrite Hrun0. cbv beta iota. rewrite Hloop.
    simpl relay_loop. unfold bind. rewrite run_callbacks_returns, Hmid. reflexivity. }
  rewrite Hrun.
  remember (snd (run_callbacks E (read_callbacks mid) w1)) as w2 eqn:Heq. clear Heq.
  destruct (stream_catch_sends err w2) as (_ & Hopen & _ & _).
  destruct (Hopen ltac:(congruence) (Hwrites _)) as (Hr & Hw & He).
  split; [exact Hr|]. split; [| exact He].
  unfold data_events in *. rewrite Hw, filter_app, Hd2, Hd1, Hd0, Hd. reflexivity.
Qed.

(** X12: the timeout does not cover the body.  When the upstream has
    answered and its body yields some chunks and then nothing more, with
    the client still connected, the handler relays those chunks and is left
    waiting in [reader.read()]: no [[DONE]] and no error event is sent, the
    response is not ended and the heartbeat keeps running, whatever timer
    callbacks occur. *)
Theorem X12_stream_waits_on_silent_upstream
        (req_body : jsval) (upstream : response) (reads : list read_step)
        (values : list (list Byte.byte)) :
  JS.truthy (message_of req_body) = true ->
  configured (GEMINI_API_KEY process_env) = true ->
  fetch_settles E = Resolved upstream ->
  ok upstream = true ->
  body upstream = Some (ReadableStream reads) ->
  map read_settles reads = map (fun v => Resolved (Chunk v)) values ->
  ~ In ReqClose (fetch_callbacks E) ->
  Forall (fun s => ~ In ReqClose (read_callbacks s)) reads ->
  (forall n, write_ok E n = true) ->
  fst (gemini_stream process_env E D req_body fresh) = Pending /\
  data_events (snd (gemini_stream process_env E D req_body fresh)) =
    map DataChunk (decoded D (decoder_fresh D) values) /\
  ended (snd (gemini_stream process_env E D req_body fresh)) = false /\
  heartbeat (snd (gemini_stream process_env E D req_body fresh)) = Active.
Proof.
  intros Hm Hk Hs Hok Hbody Hreads Hfetch_quiet Hquiet Hwrites.
  rewrite (stream_fetched process_env E D req_body Hm Hk), Hs.
  destruct (fetched_in_flight process_env E (message_of req_body)) as [Hfl Hd].
  assert (Hc : closed (fetched process_env E (message_of req_body)) = false).
  { unfold fetched. rewrite run_callbacks_no_close by assumption. reflexivity. }
  remember (fetched process_env E (message_of req_body)) as wf eqn:Heq. clear Heq.
  destruct (clearTimeout_id_after wf) as (Hrun0 & Hev0 & Hc0 & Hd0).
  remember (snd (clearTimeout_id wf)) as w0 eqn:Heq. clear Heq.
  destruct (relay_loop_prefix E D reads [] values (decoder_fresh D) w0
              Hreads Hquiet Hwrites)
    as (w1 & Hloop & Hev1 & Hc1 & Hd1); [congruence|].
  rewrite app_nil_r in Hloop.
  assert (Hrun : try_catch (relay_response E D upstream) (stream_catch E) wf = (Pending, w1)).
  { unfold try_catch. rewrite (relay_response_readable E D upstream _ wf Hok Hbody).
    unfold bind. rewrite Hrun0. cbv beta iota. rewrite Hloop. reflexivity. }
  rewrite Hrun. simpl.
  assert (Hfl1 : in_flight w1).
  { apply (in_flight_evolves wf); [assumption|]. eapply evolves_trans; eassumption. }
  split; [reflexivity|]. split; [rewrite Hd1, Hd0, Hd; reflexivity|].
  split; [apply (not_ended _ Hfl1)|].
  rewrite (heartbeat_by_listener _ Hfl1), Hc1. reflexivity.
Qed.

End ErrorPaths.

Lemma X8_witness :
  data_events (snd (gemini_stream with_key rate_limited ascii_decoder hi fresh)) =
    [DataError "Upstream error"].
Proof.
  apply (X8_stream_upstream_error with_key rate_limited ascii_decoder hi
           (mkResponse false 429 (Some "rate limited") None None));
    reflexivity.
Defined.

Lemma X9_witness :
  data_events (snd (gemini_stream with_key no_body ascii_decoder hi fresh)) =
    [DataError "No stream from upstream"].
Proof.
  apply (X9_stream_no_body with_key no_body ascii_decoder hi
           (mkResponse true 200 None None None));
    reflexivity.
Defined.

Lemma X10_witness :
  data_events (snd (gemini_stream with_key network_down ascii_decoder hi fresh)) =
    [DataError "Internal server error"].
Proof.
  apply (X10_stream_internal_error with_key network_down ascii_decoder hi
           (mkExn "FetchError" "ECONNREFUSED"));
    reflexivity.
Defined.

Lemma X11_witness :
  data_events (snd (gemini_stream with_key breaks_midway ascii_decoder hi fresh)) =
    [DataChunk "He"; DataChunk "llo"; DataError "Internal server error"].
Proof.
  apply (X11_stream_read_failure
           with_key breaks_midway ascii_decoder hi
           (streaming_response
              [chunk_read [] "He"; chunk_read [HeartbeatTick] "llo";
               mkRead [] (Rejected (mkExn "FetchError" "socket hang up"));
               chunk_read [] "never"])
           [chunk_read [] "He"; chunk_read [HeartbeatTick] "llo"]
           (mkRead [] (Rejected (mkExn "FetchError" "socket hang up")))
           [chunk_read [] "never"]
           [list_byte_of_string "He"; list_byte_of_string "llo"]
           (mkExn "FetchError" "socket hang up"));
    try reflexivity.
  - simpl. tauto.
  - repeat constructor; simpl; intuition discriminate.
Defined.

Lemma X12_witness :
  fst (gemini_stream with_key goes_silent ascii_decoder hi fresh) = Pending /\
  heartbeat (snd (gemini_stream with_key goes_silent ascii_decoder hi fresh)) = Active.
Proof.
  destruct (X12_stream_waits_on_silent_upstream
              with_key goes_silent ascii_decoder hi
              (streaming_response [chunk_read [] "He"; chunk_read [TimeoutFires] "llo"])
              [chunk_read [] "He"; chunk_read [TimeoutFires] "llo"]
              [list_byte_of_string "He"; list_byte_of_string "llo"])
    as (Hp & _ & _ & Hh); try reflexivity.
  - simpl. tauto.
  - repeat constructor; simpl; intuition discriminate.
  - split; assumption.
Defined.

(** ** The body that [node-fetch] gives *)

Section NodeFetch.

Variable process_env : string -> option string.
Variable E : environment.
Variable D : TextDecoder.

(** C1, on the code: [fetch] is the one of [node-fetch] (line 3), whose
    response body is a Node.js stream without [getReader].  When the
    upstream answers with a success status and such a body, line 82 throws a
    [TypeError] before any read: the [catch] block logs it, and the only
    data event the client can get is [{ error: 'Internal server error' }],
    with every write returning and no 'close' event exactly that one; no
    chunk is relayed and no [[DONE]] is sent. *)
Theorem C1_node_fetch_body_is_not_relayed (req_body : jsval) (upstream : response) :
  JS.truthy (message_of req_body) = true ->
  configured (GEMINI_API_KEY process_env) = true ->
  fetch_settles E = Resolved upstream ->
  ok upstream = true ->
  body upstream = Some NodeReadable ->
  In (Error, "Error in stream proxy")
     (console (snd (gemini_stream process_env E D req_body fresh))) /\
  (data_events (snd (gemini_stream process_env E D req_body fresh)) = [] \/
   data_events (snd (gemini_stream process_env E D req_body fresh)) =
     [DataError "Internal server error"]) /\
  (closed (snd (gemini_stream process_env E D req_body fresh)) = false ->
   (forall n, write_ok E n = true) ->
   fst (gemini_stream process_env E D req_body fresh) = Return tt /\
   data_events (snd (gemini_stream process_env E D req_body fresh)) =
     [DataError "Internal server error"] /\
   ended (snd (gemini_stream process_env E D req_body fresh)) = true).
Proof.
  intros Hm Hk Hs Hok Hbody.
  rewrite (stream_fetched process_env E D req_body Hm Hk), Hs.
  destruct (fetched_in_flight process_env E (message_of req_body)) as [_ Hd].
  remember (fetched process_env E (message_of req_body)) as wf eqn:Heq. clear Heq.
  destruct (clearTimeout_id_after wf) as (Hrun0 & _ & _ & Hd0).
  assert (Hrun : try_catch (relay_response E D upstream) (stream_catch E) wf =
                 stream_catch E no_getReader (snd (clearTimeout_id wf))).
  { unfold try_catch, relay_response, bind. rewrite Hrun0, Hok, Hbody. reflexivity. }
  rewrite Hrun. rewrite <- Hd0 in Hd.
  remember (snd (clearTimeout_id wf)) as w0 eqn:Heq. clear Heq Hrun Hrun0 Hd0.
  destruct (stream_catch_sends E no_getReader w0) as (Hclosed & Hopen & Hcl & Hlog).
  change (catch_event no_getReader) with (DataError "Internal server error") in Hopen.
  split; [exact Hlog|]. rewrite Hcl. unfold data_events in *.
  split.
  - destruct (closed w0) eqn:Hc.
    + left. destruct (Hclosed eq_refl) as (_ & Hw & _). rewrite Hw. exact Hd.
    + destruct (write_ok E (write_attempts w0)) eqn:Hwr.
      * right. destruct (Hopen eq_refl eq_refl) as (_ & Hw & _).
        rewrite Hw, filter_app, Hd. reflexivity.
      * left. unfold stream_catch, unless_closed, bind, read, when, res_write, console_line,
          clearInterval_heartbeat, res_end, update.
        change (is_abort no_getReader) with false. simpl. rewrite Hc. simpl.
        rewrite Hwr. simpl. exact Hd.
  - intros Hc Hall. destruct (Hopen Hc (Hall _)) as (Hr & Hw & He).
    rewrite Hw, filter_app, Hd. auto.
Qed.

End NodeFetch.

Lemma C1_witness :
  fst (gemini_stream with_key node_fetch_streams ascii_decoder hi fresh) = Return tt /\
  data_events (snd (gemini_stream with_key node_fetch_streams ascii_decoder hi fresh)) =
    [DataError "Internal server error"] /\
  ended (snd (gemini_stream with_key node_fetch_streams ascii_decoder hi fresh)) = true.
Proof.
  apply (C1_node_fetch_body_is_not_relayed
           with_key node_fetch_streams ascii_decoder hi
           (mkResponse true 200 None None (Some NodeReadable)));
    reflexivity.
Defined.

(** ** How the streaming handler ends *)

Section Endings.

Variable process_env : string -> option string.
Variable E : environment.
Variable D : TextDecoder.

Lemma bind_returns_ended {A : Type} (m : M A) (k : A -> M unit) (w : world) :
  (forall a w1, fst (k a w1) = Return tt -> ended (snd (k a w1)) = true) ->
  fst (bind m k w) = Return tt -> ended (snd (bind m k w)) = true.
Proof.
  intros Hk. unfold bind. destruct (m w) as [[a | e |] w1]; simpl; try discriminate.
  apply Hk.
Qed.

Lemma wind_up_returns_ended (e : sse) (w : world) :
  fst ((unless_closed E e ;; clearInterval_heartbeat ;; res_end) w) = Return tt ->
  ended (snd ((unless_closed E e ;; clearInterval_heartbeat ;; res_end) w)) = true.
Proof.
  apply bind_returns_ended. intros _ w1. apply bind_returns_ended. intros _ w2 _. reflexivity.
Qed.

Lemma relay_response_returns_ended (upstream : response) (w : world) :
  fst (relay_response E D upstream w) = Return tt ->
  ended (snd (relay_response E D upstream w)) = true.
Proof.
  unfold relay_response. apply bind_returns_ended. intros _ w1.
  destruct (negb (ok upstream)).
  - apply bind_returns_ended. intros _ w2. apply bind_returns_ended. intros _ w3.
    apply wind_up_returns_ended.
  - destruct (body upstream) as [stream |]; [| apply wind_up_returns_ended].
    apply bind_returns_ended. intros reads w2.
    apply bind_returns_ended. intros _ w3. apply wind_up_returns_ended.
Qed.

Lemma stream_catch_result (err : exn) (w : world) :
  ended w = false ->
  (fst (stream_catch E err w) = Return tt /\ ended (snd (stream_catch E err w)) = true) \/
  (fst (stream_catch E err w) = Throw write_failed /\
   ended (snd (stream_catch E err w)) = false /\
   closed (snd (stream_catch E err w)) = false /\
   write_ok E (write_attempts w) = false).
Proof.
  intros He.
  unfold stream_catch, unless_closed, bind, read, when, res_write, console_line,
    clearInterval_heartbeat, res_end, update.
  destruct (is_abort err); simpl;
    destruct (closed w) eqn:Hc; simpl; auto;
    destruct (write_ok E (write_attempts w)) eqn:Hw; simpl; auto.
Qed.

(** X13: how the streaming handler ends.  If it returns, it has ended the
    response.  It throws only when the write of an error event inside the
    [catch] block throws; then the client was not flagged as gone and
    [res.end()] is never called.  If every write returns it does not
    throw. *)
Theorem X13_stream_endings (req_body : jsval) :
  JS.truthy (message_of req_body) = true ->
  configured (GEMINI_API_KEY process_env) = true ->
  (fst (gemini_stream process_env E D req_body fresh) = Return tt ->
   ended (snd (gemini_stream process_env E D req_body fresh)) = true) /\
  (forall e, fst (gemini_stream process_env E D req_body fresh) = Throw e ->
             e = write_failed /\
             ended (snd (gemini_stream process_env E D req_body fresh)) = false /\
             closed (snd (gemini_stream process_env E D req_body fresh)) = false) /\
  ((forall n, write_ok E n = true) ->
   forall e, fst (gemini_stream process_env E D req_body fresh) <> Throw e).
Proof.
  intros Hm Hk.
  rewrite (stream_fetched process_env E D req_body Hm Hk).
  destruct (fetched_in_flight process_env E (message_of req_body)) as [Hfl _].
  remember (fetched process_env E (message_of req_body)) as wf eqn:Heq. clear Heq.
  assert (Hcatch : forall err w,
             in_flight w ->
             (fst (stream_catch E err w) = Return tt ->
              ended (snd (stream_catch E err w)) = true) /\
             (forall e, fst (stream_catch E err w) = Throw e ->
                        e = write_failed /\
                        ended (snd (stream_catch E err w)) = false /\
                        closed (snd (stream_catch E err w)) = false) /\
             ((forall n, write_ok E n = true) ->
              forall e, fst (stream_catch E err w) <> Throw e)).
  { intros err w Hw.
    destruct (stream_catch_result err w (not_ended _ Hw))
      as [[Hr He] | (Hr & He & Hc & Hwr)]; rewrite Hr.
    - split; [intros _; assumption|].
      split; [intros e Heq; discriminate Heq | intros _ e Heq; discriminate Heq].
    - split; [discriminate|]. split.
      + intros e Heq. inversion Heq. auto.
      + intros Hall. rewrite Hall in Hwr. discriminate. }
  destruct (fetch_settles E) as [upstream | err]; [| now apply Hcatch].
  unfold try_catch.
  destruct (relay_response_outcome E D upstream wf Hfl)
    as (res & w1 & Hrun & _ & Hres).
  pose proof (relay_response_returns_ended upstream wf) as Hend.
  rewrite Hrun in *. simpl in Hend.
  destruct res as [[] | err |].
  - simpl. split; [intros _; auto|].
    split; [intros e Heq; discriminate Heq | intros _ e Heq; discriminate Heq].
  - now apply Hcatch.
  - simpl. split; [discriminate|].
    split; [intros e Heq; discriminate Heq | intros _ e Heq; discriminate Heq].
Qed.

End Endings.

Lemma X13_witness :
  ended (snd (gemini_stream with_key breaks_midway ascii_decoder hi fresh)) = true /\
  ended (snd (gemini_stream with_key channel_broken ascii_decoder hi fresh)) = false.
Proof.
  destruct (X13_stream_endings with_key breaks_midway ascii_decoder hi eq_refl eq_refl)
    as [Hret _].
  destruct (X13_stream_endings with_key channel_broken ascii_decoder hi eq_refl eq_refl)
    as (_ & Hthrow & _).
  split.
  - apply Hret. reflexivity.
  - apply (Hthrow write_failed). reflexivity.
Defined.

(** ** The reply is never missing *)

Lemma stringify_nonempty (v : json) : JS.stringify v <> EmptyString.
Proof.
  destruct v as [| b | z | s | items | props]; simpl; try discriminate.
  - destruct b; discriminate.
  - unfold JS.number_to_string, NilZero.string_of_int.
    destruct (Z.to_int (int_value z)) as [d | d]; [| discriminate].
    destruct d; simpl; discriminate.
Qed.

Lemma fallback_chain_truthy (data : json) :
  exists v, fallback_chain data = Some v /\ JS.truthy (Some v) = true.
Proof.
  unfold fallback_chain.
  destruct (JS.truthy (candidates_shape data)) eqn:Hc.
  - destruct (candidates_shape data) as [v |]; [| discriminate]. eauto.
  - destruct (JS.truthy (output_shape data)) eqn:Ho.
    + destruct (output_shape data) as [v |]; [| discriminate]. eauto.
    + eexists. split; [reflexivity|]. simpl.
      apply negb_true_iff, String.eqb_neq, stringify_nonempty.
Qed.

(** X14: a success answer of the non-streaming handler always carries a
    reply: the body is an object with the one property [reply], and its
    value is truthy (in particular never [undefined], [null] or the empty
    string), because the last operand of the [||] chain is the non-empty
    serialization of the payload. *)
Theorem X14_chat_reply_never_missing
        (process_env : string -> option string) (E : environment)
        (req_body : jsval) (r : response) :
  JS.truthy (message_of req_body) = true ->
  configured (GEMINI_API_KEY process_env) = true ->
  fetch_settles E = Resolved r ->
  ok r = true ->
  exists v,
    json_sent (snd (gemini_chat process_env E req_body fresh)) = Some (JObj [("reply", v)]) /\
    JS.truthy (Some v) = true.
Proof.
  intros Hm Hk Hs Hok.
  destruct (chat_resolved process_env E req_body r Hm Hk Hs Hok) as (_ & _ & Hj).
  rewrite extract_reply_chain in Hj.
  destruct (fallback_chain_truthy (parsed r)) as (v & Hv & Ht).
  exists v. rewrite Hj, Hv. auto.
Qed.

Lemma X14_witness :
  exists v,
    json_sent (snd (gemini_chat with_key unparseable hi fresh)) = Some (JObj [("reply", v)]) /\
    JS.truthy (Some v) = true.
Proof.
  apply (X14_chat_reply_never_missing with_key unparseable hi (json_response None));
    reflexivity.
Defined.

(** ** Event framing *)

Lemma has_control_app (s t : string) :
  has_control (s ++ t) = has_control s || has_control t.
Proof.
  induction s as [| c s IH]; [reflexivity|].
  simpl. rewrite IH. apply orb_assoc.
Qed.

Lemma escape_char_clean (c : ascii) : has_control (JS.escape_char c) = false.
Proof. destruct c as [[] [] [] [] [] [] [] []]; reflexivity. Qed.

Lemma escape_clean (s : string) : has_control (JS.escape s) = false.
Proof.
  induction s as [| c s IH]; [reflexivity|].
  simpl. rewrite has_control_app, escape_char_clean, IH. reflexivity.
Qed.

Lemma quote_clean (s : string) : has_control (JS.quote s) = false.
Proof.
  unfold JS.quote. simpl. rewrite has_control_app, escape_clean. reflexivity.
Qed.

(** X15: every data event is one event on the wire, whatever bytes the
    upstream sent: what [res.write] is given is [data: ], a payload and two
    line feeds, and the payload holds no line feed, carriage return or other
    control character, since [JSON.stringify] escapes them. *)
Theorem X15_data_event_is_one_line (e : sse) :
  is_data e = true ->
  exists payload,
    render e = ("data: " ++ payload ++ newline ++ newline)%string /\
    has_control payload = false.
Proof.
  destruct e as [| chunk | error |]; intros He; try discriminate.
  - eexists. split; [reflexivity|].
    simpl. rewrite !has_control_app, escape_clean. reflexivity.
  - eexists. split; [reflexivity|].
    simpl. rewrite !has_control_app, escape_clean. reflexivity.
  - exists "[DONE]". split; reflexivity.
Qed.

Lemma X15_witness :
  exists payload,
    render (DataChunk newline) = ("data: " ++ payload ++ newline ++ newline)%string /\
    has_control payload = false.
Proof. apply (X15_data_event_is_one_line (DataChunk newline)). reflexivity. Defined.

(** ** A channel that no longer takes writes *)

(** X16: once the channel takes no write any more, the loop makes one read
    at most: whatever that read yields, the loop is left (by the [closed]
    check, by the failed write, by completion or by the read's own failure)
    and what the upstream would have sent afterwards plays no part. *)
Theorem X16_broken_channel_stops_reading
        (E : environment) (D : TextDecoder) (s : read_step)
        (rest rest' : list read_step) (d : decoder_state D) (w : world) :
  (forall n, write_ok E n = false) ->
  relay_loop E D (s :: rest) d w = relay_loop E D (s :: rest') d w /\
  fst (relay_loop E D (s :: rest) d w) <> Pending /\
  data_events (snd (relay_loop E D (s :: rest) d w)) = data_events w.
Proof.
  intros Hbroken.
  assert (Hstep : exists res w',
             (forall tl, relay_loop E D (s :: tl) d w = (res, w')) /\
             res <> Pending /\
             data_events w' = data_events w).
  { destruct (run_callbacks_after E (read_callbacks s) w) as [_ Hd].
    pose proof (run_callbacks_returns E (read_callbacks s) w) as Hr.
    remember (snd (run_callbacks E (read_callbacks s) w)) as w1 eqn:Heq. clear Heq.
    destruct (read_settles s) as [[value |] | e] eqn:Hs.
    - destruct (decode D d value) as [chunk d'] eqn:Hdec.
      destruct (closed w1) eqn:Hc.
      + exists (Return tt), w1. split; [| split; [discriminate | exact Hd]].
        intros tl. simpl relay_loop. unfold bind. rewrite Hr, Hs. simpl. rewrite Hdec.
        unfold read. rewrite Hc. reflexivity.
      + eexists (Return tt), _. split; [| split; [discriminate|]].
        * intros tl. simpl relay_loop. unfold bind. rewrite Hr, Hs. simpl. rewrite Hdec.
          unfold read, try_catch, res_write. rewrite Hc, Hbroken. reflexivity.
        * exact Hd.
    - exists (Return tt), w1. split; [| split; [discriminate | exact Hd]].
      intros tl. simpl relay_loop. unfold bind. rewrite Hr, Hs. reflexivity.
    - exists (Throw e), w1. split; [| split; [discriminate | exact Hd]].
      intros tl. simpl relay_loop. unfold bind. rewrite Hr, Hs. reflexivity. }
  destruct Hstep as (res & w' & Hany & Hnp & Hd).
  rewrite (Hany rest), (Hany rest'). simpl. auto.
Qed.

Lemma X16_witness :
  relay_loop channel_broken ascii_decoder
             [chunk_read [] "He"; chunk_read [] "llo"; mkRead [] (Resolved Done)] tt opened =
  relay_loop channel_broken ascii_decoder [chunk_read [] "He"] tt opened.
Proof.
  apply (X16_broken_channel_stops_reading
           channel_broken ascii_decoder (chunk_read [] "He")
           [chunk_read [] "llo"; mkRead [] (Resolved Done)] [] tt opened).
  intros n. reflexivity.
Defined.

(** ** The body parser in front of the handlers *)

Section Middleware.

Variable process_env : string -> option string.
Variable E : environment.
Variable D : TextDecoder.


End Middleware.

